(** * wealth-guide-voice: financial calculators and the chat intent router

    A shallow embedding of [src/lib/financialCalculations.ts] and of the
    message handler of [src/components/chat/FinancialChatbot.tsx].

    Numbers.  A JavaScript [number] is an IEEE-754 binary64 value.  It is
    embedded as an extended real: a finite value carries a real number and
    the three special values [Infinity], [-Infinity] and [NaN] are kept with
    the arithmetic ECMAScript gives them.  Two things are idealised and are
    therefore outside every statement below: finite results are exact (no
    rounding, no overflow to [Infinity], no underflow), and there is a single
    zero (a zero divisor counts as [+0]).

    Where rounding decides what [calculateDebtPayoff] returns - at the guard
    against a payment that never amortizes, and where the month count is
    rounded up - the function is embedded a second time, in module [F64],
    over the binary64 numbers themselves (primitive floats).  ECMAScript
    leaves the digits of [Math.log] to the implementation; [F64.log] is the
    algorithm of fdlibm (e_log.c), the one V8 and SpiderMonkey run.
    Statements that bound what [parseInt] returns carry a bound on the
    length of the text, which keeps the value within the finite range of
    binary64.

    Strings.  A JavaScript string is embedded as a [string] of bytes (UTF-8).
    All patterns and keywords of the source are ASCII; case folding and
    white space are the ASCII ones. *)

From Stdlib Require Import Reals Lra Lia ZArith Bool List.
From Stdlib Require Import Ascii String DecimalString DecimalPos DecimalN.
From Stdlib Require Import Floats.
From Stdlib Require Uint63.
Import ListNotations.

Set Implicit Arguments.
Set Warnings "-inexact-float".

(* ================================================================== *)
(** * Part I. Definitions                                              *)
(* ================================================================== *)

(** ** JavaScript numbers *)

Inductive number : Type :=
| Fin (r : R)
| PInf
| NInf
| NaN.

Declare Scope js_scope.
Delimit Scope js_scope with js.
Bind Scope js_scope with number.

Definition Rleb (x y : R) : bool := if Rle_dec x y then true else false.
Definition Rltb (x y : R) : bool := if Rlt_dec x y then true else false.
Definition Reqb (x y : R) : bool := if Req_dec_T x y then true else false.

(** The integer [n] with [n - 1 < r <= n]. *)
Definition Zceil (r : R) : Z := (1 - up (- r))%Z.

(** The integer [n] with [n <= r < n + 1]. *)
Definition Zfloor (r : R) : Z := (up r - 1)%Z.

Definition is_integer (r : R) : bool := Reqb (IZR (Zfloor r)) r.

Definition inf_of_sign (positive : bool) : number :=
  if positive then PInf else NInf.

Module Num.

Definition neg (x : number) : number :=
  match x with
  | Fin r => Fin (- r)
  | PInf => NInf
  | NInf => PInf
  | NaN => NaN
  end.

Definition add (x y : number) : number :=
  match x, y with
  | NaN, _ | _, NaN => NaN
  | Fin a, Fin b => Fin (a + b)
  | PInf, NInf | NInf, PInf => NaN
  | PInf, _ | _, PInf => PInf
  | NInf, _ | _, NInf => NInf
  end.

Definition sub (x y : number) : number := add x (neg y).

Definition mul (x y : number) : number :=
  match x, y with
  | NaN, _ | _, NaN => NaN
  | Fin a, Fin b => Fin (a * b)
  | Fin a, PInf | PInf, Fin a =>
      if Reqb a 0 then NaN else inf_of_sign (Rltb 0 a)
  | Fin a, NInf | NInf, Fin a =>
      if Reqb a 0 then NaN else inf_of_sign (Rltb a 0)
  | PInf, PInf | NInf, NInf => PInf
  | PInf, NInf | NInf, PInf => NInf
  end.

Definition div (x y : number) : number :=
  match x, y with
  | NaN, _ | _, NaN => NaN
  | Fin a, Fin b =>
      if Reqb b 0
      then (if Reqb a 0 then NaN else inf_of_sign (Rltb 0 a))
      else Fin (a / b)
  | Fin _, PInf | Fin _, NInf => Fin 0
  | PInf, Fin b => inf_of_sign (Rleb 0 b)
  | NInf, Fin b => inf_of_sign (Rltb b 0)
  | PInf, PInf | PInf, NInf | NInf, PInf | NInf, NInf => NaN
  end.

(** [x <= y], [x < y] and [x > y]: false as soon as one side is [NaN]. *)
Definition leb (x y : number) : bool :=
  match x, y with
  | NaN, _ | _, NaN => false
  | Fin a, Fin b => Rleb a b
  | NInf, _ => true
  | _, PInf => true
  | PInf, _ => false
  | _, NInf => false
  end.

Definition ltb (x y : number) : bool :=
  match x, y with
  | NaN, _ | _, NaN => false
  | Fin a, Fin b => Rltb a b
  | PInf, _ => false
  | _, NInf => false
  | NInf, _ => true
  | _, PInf => true
  end.

Definition gtb (x y : number) : bool := ltb y x.

(** ToBoolean: [0] and [NaN] are the falsy numbers. *)
Definition truthy (x : number) : bool :=
  match x with
  | Fin r => negb (Reqb r 0)
  | PInf | NInf => true
  | NaN => false
  end.

Definition of_Z (z : Z) : number := Fin (IZR z).

End Num.

Notation "x + y" := (Num.add x y) : js_scope.
Notation "x - y" := (Num.sub x y) : js_scope.
Notation "x * y" := (Num.mul x y) : js_scope.
Notation "x / y" := (Num.div x y) : js_scope.
Notation "- x" := (Num.neg x) : js_scope.
Notation "x <=? y" := (Num.leb x y) (at level 70) : js_scope.
Notation "x <? y" := (Num.ltb x y) (at level 70) : js_scope.
Notation "x >? y" := (Num.gtb x y) (at level 70) : js_scope.

(** ** The [Math] functions the calculators call *)

Module Math.

(** [Math.log]: [-Infinity] at zero, [NaN] below it. *)
Definition log (x : number) : number :=
  match x with
  | Fin r =>
      if Rltb 0 r then Fin (ln r)
      else if Reqb r 0 then NInf else NaN
  | PInf => PInf
  | NInf | NaN => NaN
  end.

Definition ceil (x : number) : number :=
  match x with
  | Fin r => Fin (IZR (Zceil r))
  | _ => x
  end.

(** [Math.round]: the nearest integer, halves towards [+Infinity]. *)
Definition round (x : number) : number :=
  match x with
  | Fin r => Fin (IZR (Zfloor (r + / 2)))
  | _ => x
  end.

Definition max (x y : number) : number :=
  match x, y with
  | NaN, _ | _, NaN => NaN
  | _, _ => if Num.leb x y then y else x
  end.

Definition min (x y : number) : number :=
  match x, y with
  | NaN, _ | _, NaN => NaN
  | _, _ => if Num.leb x y then x else y
  end.

(** [Math.pow] (Number::exponentiate).  A negative base has a real power
    only at an integer exponent. *)
Definition pow (base exponent : number) : number :=
  match exponent with
  | NaN => NaN
  | Fin e =>
      if Reqb e 0 then Fin 1 else
      match base with
      | NaN => NaN
      | PInf => if Rltb 0 e then PInf else Fin 0
      | NInf =>
          if Rltb 0 e
          then (if is_integer e && Z.odd (Zfloor e) then NInf else PInf)
          else Fin 0
      | Fin b =>
          if Rltb 0 b then Fin (Rpower b e)
          else if Reqb b 0 then (if Rltb 0 e then Fin 0 else PInf)
          else if is_integer e
               then Fin ((if Z.odd (Zfloor e) then -1 else 1) * Rpower (- b) e)
               else NaN
      end
  | PInf =>
      match base with
      | NaN => NaN
      | PInf | NInf => PInf
      | Fin b =>
          if Rltb 1 (Rabs b) then PInf
          else if Reqb (Rabs b) 1 then NaN else Fin 0
      end
  | NInf =>
      match base with
      | NaN => NaN
      | PInf | NInf => Fin 0
      | Fin b =>
          if Rltb 1 (Rabs b) then Fin 0
          else if Reqb (Rabs b) 1 then NaN else PInf
      end
  end.

End Math.

Open Scope js_scope.

(** ** financialCalculations.ts *)

Record BudgetPlan : Type := {
  totalIncome : number;
  needs : number;
  wants : number;
  savings : number;
  needsPercentage : number;
  wantsPercentage : number;
  savingsPercentage : number
}.

Record RetirementPlan : Type := {
  yearsToRetirement : number;
  monthlyContribution : number;
  projectedRetirementFund : number;
  monthlyIncomeAtRetirement : number
}.

Record EmergencyFundPlan : Type := {
  targetAmount : number;
  currentAmount : number;
  monthsToGoal : number;
  monthlySavingsNeeded : number
}.

Record DebtPayoff : Type := {
  monthsToPayoff : number;
  totalInterest : number;
  totalPaid : number
}.

Definition calculateBudget (income : number) : BudgetPlan :=
  let needs := income * Fin 0.5 in
  let wants := income * Fin 0.3 in
  let savings := income * Fin 0.2 in
  {| totalIncome := income;
     needs := needs;
     wants := wants;
     savings := savings;
     needsPercentage := Fin 50;
     wantsPercentage := Fin 30;
     savingsPercentage := Fin 20 |}.

(** The default of the fifth parameter of [calculateRetirementPlan]. *)
Definition default_contributionRate : number := Fin 0.15.

Definition calculateRetirementPlan
    (currentAge retirementAge currentSavings monthlyIncome
     contributionRate : number) : RetirementPlan :=
  let yearsToRetirement := retirementAge - currentAge in
  let monthlyContribution := monthlyIncome * contributionRate in
  let annualReturn := Fin 0.07 in
  let monthlyReturn := annualReturn / Fin 12 in
  let futureValueCurrent :=
    currentSavings * Math.pow (Fin 1 + annualReturn) yearsToRetirement in
  let futureValueContributions :=
    monthlyContribution *
    ((Math.pow (Fin 1 + monthlyReturn) (yearsToRetirement * Fin 12) - Fin 1)
     / monthlyReturn) in
  let projectedRetirementFund :=
    futureValueCurrent + futureValueContributions in
  let monthlyIncomeAtRetirement :=
    projectedRetirementFund * Fin 0.04 / Fin 12 in
  {| yearsToRetirement := yearsToRetirement;
     monthlyContribution := monthlyContribution;
     projectedRetirementFund := projectedRetirementFund;
     monthlyIncomeAtRetirement := monthlyIncomeAtRetirement |}.

(** The default of the fourth parameter of [calculateEmergencyFund]. *)
Definition default_targetMonths : number := Fin 6.

Definition calculateEmergencyFund
    (monthlyExpenses currentSavings monthlyIncome targetMonths : number)
    : EmergencyFundPlan :=
  let targetAmount := monthlyExpenses * targetMonths in
  let remainingAmount := Math.max (Fin 0) (targetAmount - currentSavings) in
  let availableForSavings := monthlyIncome * Fin 0.1 in
  let monthsToGoal :=
    if remainingAmount >? Fin 0
    then Math.ceil (remainingAmount / availableForSavings)
    else Fin 0 in
  {| targetAmount := targetAmount;
     currentAmount := currentSavings;
     monthsToGoal := monthsToGoal;
     monthlySavingsNeeded := availableForSavings |}.

Definition calculateDebtPayoff
    (balance interestRate monthlyPayment : number) : DebtPayoff :=
  if monthlyPayment <=? balance * interestRate / Fin 12 then
    {| monthsToPayoff := PInf; totalInterest := PInf; totalPaid := PInf |}
  else
    let monthlyRate := interestRate / Fin 12 in
    let monthsToPayoff :=
      Math.ceil
        (- Math.log (Fin 1 - (balance * monthlyRate) / monthlyPayment)
         / Math.log (Fin 1 + monthlyRate)) in
    let totalPaid := monthsToPayoff * monthlyPayment in
    let totalInterest := totalPaid - balance in
    {| monthsToPayoff := monthsToPayoff;
       totalInterest := totalInterest;
       totalPaid := totalPaid |}.

(** The number of months of the closed form of [calculateDebtPayoff], before
    it is rounded up. *)
Definition months_exact (balance rate payment : R) : R :=
  (- ln (1 - balance * (rate / 12) / payment) / ln (1 + rate / 12))%R.

(** The projected fund of [calculateRetirementPlan] at finite inputs, over a
    horizon of [years]. *)
Definition fund_exact (years currentSavings monthlyIncome contributionRate : R)
    : R :=
  (currentSavings * Rpower (1 + 0.07) years
   + monthlyIncome * contributionRate
     * ((Rpower (1 + 0.07 / 12) (years * 12) - 1) / (0.07 / 12)))%R.

(** The result of the first branch of [calculateDebtPayoff]. *)
Definition is_sentinel (p : DebtPayoff) : Prop :=
  monthsToPayoff p = PInf /\ totalInterest p = PInf /\ totalPaid p = PInf.

(** What a caller can test: [x === Infinity]. *)
Definition is_PInf (x : number) : bool :=
  match x with PInf => true | _ => false end.

(** [formatCurrency]: [Intl.NumberFormat('en-US')], currency USD, no fraction
    digits.  A finite amount is rounded to the nearest integer (halves away
    from zero) and grouped by thousands. *)

Fixpoint group_thousands (reversed_digits : list ascii) : list ascii :=
  match reversed_digits with
  | a :: b :: c :: (_ :: _) as rest =>
      a :: b :: c :: ","%char :: group_thousands rest
  | _ => reversed_digits
  end.

Definition grouped_digits (n : Z) : string :=
  string_of_list_ascii
    (rev (group_thousands
            (rev (list_ascii_of_string
                    (NilEmpty.string_of_uint (N.to_uint (Z.to_N n))))))).

Definition formatCurrency (amount : number) : string :=
  match amount with
  | Fin r =>
      ((if Rltb r 0 then "-" else EmptyString) ++ "$"
       ++ grouped_digits (Zfloor (Rabs r + / 2)))%string
  | PInf => "$∞"%string
  | NInf => "-$∞"%string
  | NaN => "$NaN"%string
  end.

(** ** calculateDebtPayoff on binary64

    The same function over the numbers the code computes with.  Every
    operator is the IEEE-754 one, in the order the source applies them. *)

Module F64.

Local Open Scope float_scope.

(** The conversion of an integer below 2^53 in size to a number. *)
Definition of_Z (k : Z) : float :=
  if (k <? 0)%Z then - of_uint63 (Uint63.of_Z (- k))
  else of_uint63 (Uint63.of_Z k).

(** [Math.ceil]: a value [m * 2^e] with [e < 0] is cut at the binary point;
    infinities, [NaN] and whole numbers are returned as they are. *)
Definition ceil (x : float) : float :=
  match Prim2SF x with
  | S754_finite negative m e =>
      if (0 <=? e)%Z then x
      else
        let unit := (2 ^ (- e))%Z in
        let whole := (Z.pos m / unit)%Z in
        if negative then - of_Z whole
        else if (Z.pos m mod unit =? 0)%Z then x
        else of_Z (whole + 1)
  | _ => x
  end.

Definition ln2_hi : float := 0x1.62e42fee00000p-1.
Definition ln2_lo : float := 0x1.a39ef35793c76p-33.
Definition Lg1 : float := 0x1.5555555555593p-1.
Definition Lg2 : float := 0x1.999999997fa04p-2.
Definition Lg3 : float := 0x1.2492494229359p-2.
Definition Lg4 : float := 0x1.c71c51d8e78afp-3.
Definition Lg5 : float := 0x1.7466496cb03dep-3.
Definition Lg6 : float := 0x1.39a09d078c69fp-3.
Definition Lg7 : float := 0x1.2f112df3e5244p-3.

(** [Math.log].  The argument is written [2^k * (1 + f)] with [1 + f]
    between [sqrt 2 / 2] and [sqrt 2]; [hx] is the upper twenty bits of the
    fraction, on which the algorithm chooses its formulas. *)
Definition log (x : float) : float :=
  match Prim2SF x with
  | S754_nan => nan
  | S754_zero _ => neg_infinity
  | S754_infinity negative => if negative then nan else infinity
  | S754_finite true _ _ => nan
  | S754_finite false m e =>
      let shift := (52 - Z.log2 (Z.pos m))%Z in
      let significand := (Z.pos m * 2 ^ shift)%Z in
      let hx := ((significand - 2 ^ 52) / 2 ^ 32)%Z in
      let upper := (0x100000 <=? hx + 0x95f64)%Z in
      let k := (e - shift + 52 + (if upper then 1 else 0))%Z in
      let x :=
        SF2Prim (S754_finite false (Z.to_pos significand)
                   (if upper then -53 else -52)) in
      let f := x - 1 in
      let dk := of_Z k in
      if ((hx + 2) mod 0x100000 <? 3)%Z then
        if f =? 0 then
          if (k =? 0)%Z then 0 else dk * ln2_hi + dk * ln2_lo
        else
          let R := f * f * (0.5 - 0x1.5555555555555p-2 * f) in
          if (k =? 0)%Z then f - R
          else dk * ln2_hi - ((R - dk * ln2_lo) - f)
      else
        let s := f / (2 + f) in
        let z := s * s in
        let w := z * z in
        let t1 := w * (Lg2 + w * (Lg4 + w * Lg6)) in
        let t2 := z * (Lg1 + w * (Lg3 + w * (Lg5 + w * Lg7))) in
        let R := t2 + t1 in
        if ((0x6147a <=? hx) && (hx <=? 0x6b851))%Z%bool then
          let hfsq := 0.5 * f * f in
          if (k =? 0)%Z then f - (hfsq - s * (hfsq + R))
          else dk * ln2_hi - ((hfsq - (s * (hfsq + R) + dk * ln2_lo)) - f)
        else
          if (k =? 0)%Z then f - s * (f - R)
          else dk * ln2_hi - ((s * (f - R) - dk * ln2_lo) - f)
  end.

Record DebtPayoff : Type := {
  monthsToPayoff : float;
  totalInterest : float;
  totalPaid : float
}.

Definition calculateDebtPayoff (balance interestRate monthlyPayment : float)
    : DebtPayoff :=
  if monthlyPayment <=? balance * interestRate / 12 then
    {| monthsToPayoff := infinity;
       totalInterest := infinity;
       totalPaid := infinity |}
  else
    let monthlyRate := interestRate / 12 in
    let monthsToPayoff :=
      ceil (- log (1 - (balance * monthlyRate) / monthlyPayment)
            / log (1 + monthlyRate)) in
    let totalPaid := monthsToPayoff * monthlyPayment in
    let totalInterest := totalPaid - balance in
    {| monthsToPayoff := monthsToPayoff;
       totalInterest := totalInterest;
       totalPaid := totalPaid |}.

(** The result of the first branch. *)
Definition sentinel : DebtPayoff :=
  {| monthsToPayoff := infinity;
     totalInterest := infinity;
     totalPaid := infinity |}.


(** The real number a finite binary64 number stands for. *)
Definition to_R (x : float) : R :=
  match Prim2SF x with
  | S754_finite negative m e =>
      (IZR (if negative then Z.neg m else Z.pos m) * powerRZ 2 e)%R
  | _ => 0%R
  end.

End F64.

(** ** JavaScript strings *)

Definition code (c : ascii) : nat := nat_of_ascii c.

Definition isUpper (c : ascii) : bool :=
  (65 <=? code c)%nat && (code c <=? 90)%nat.

Definition isDigit (c : ascii) : bool :=
  (48 <=? code c)%nat && (code c <=? 57)%nat.

(** [\s], on ASCII: space, tab, line feed, vertical tab, form feed, carriage
    return. *)
Definition isSpace (c : ascii) : bool :=
  (code c =? 32)%nat || ((9 <=? code c)%nat && (code c <=? 13)%nat).

Definition toLower (c : ascii) : ascii :=
  if isUpper c then ascii_of_nat (code c + 32) else c.

Fixpoint toLowerCase (s : string) : string :=
  match s with
  | EmptyString => EmptyString
  | String c rest => String (toLower c) (toLowerCase rest)
  end.

(** [s.includes(sub)] *)
Fixpoint includes (s sub : string) : bool :=
  prefix sub s ||
  match s with
  | EmptyString => false
  | String _ rest => includes rest sub
  end.

Fixpoint takeWhile (p : ascii -> bool) (s : string) : string :=
  match s with
  | EmptyString => EmptyString
  | String c rest => if p c then String c (takeWhile p rest) else EmptyString
  end.

Fixpoint dropWhile (p : ascii -> bool) (s : string) : string :=
  match s with
  | EmptyString => EmptyString
  | String c rest => if p c then dropWhile p rest else s
  end.

Fixpoint removeChars (p : ascii -> bool) (s : string) : string :=
  match s with
  | EmptyString => EmptyString
  | String c rest =>
      if p c then removeChars p rest else String c (removeChars p rest)
  end.

Fixpoint allChars (p : ascii -> bool) (s : string) : bool :=
  match s with
  | EmptyString => true
  | String c rest => p c && allChars p rest
  end.

(** [s.trim()] is empty. *)
Definition isBlank (s : string) : bool :=
  match dropWhile isSpace s with
  | EmptyString => true
  | _ => false
  end.

(** [parseInt(s)] without a radix: leading white space, a sign, a [0x]
    prefix for base sixteen, then the longest run of digits; [NaN] when the
    run is empty. *)

Definition hexDigitValue (c : ascii) : option Z :=
  let n := code c in
  if isDigit c then Some (Z.of_nat (n - 48))
  else if (97 <=? n)%nat && (n <=? 102)%nat then Some (Z.of_nat (n - 87))
  else if (65 <=? n)%nat && (n <=? 70)%nat then Some (Z.of_nat (n - 55))
  else None.

Definition digitValue (radix : Z) (c : ascii) : option Z :=
  match hexDigitValue c with
  | Some d => if (d <? radix)%Z then Some d else None
  | None => None
  end.

(** The value of the longest run of digits at the head of [s], if any. *)
Fixpoint digitsValue (radix : Z) (acc : option Z) (s : string) : option Z :=
  match s with
  | EmptyString => acc
  | String c rest =>
      match digitValue radix c with
      | Some d =>
          digitsValue radix
            (Some (match acc with Some a => a * radix + d | None => d end)%Z)
            rest
      | None => acc
      end
  end.

Definition parseIntZ (s : string) : option Z :=
  let s1 := dropWhile isSpace s in
  let '(sign, s2) :=
    match s1 with
    | String "-" rest => ((-1)%Z, rest)
    | String "+" rest => (1%Z, rest)
    | _ => (1%Z, s1)
    end in
  let '(radix, s3) :=
    match s2 with
    | String "0" (String "x" rest) | String "0" (String "X" rest) =>
        (16%Z, rest)
    | _ => (10%Z, s2)
    end in
  option_map (Z.mul sign) (digitsValue radix None s3).

Definition parseInt (s : string) : number :=
  match parseIntZ s with
  | Some z => Num.of_Z z
  | None => NaN
  end.

(** [/\$?[\d,]+/] tried at the head of [s].  When [\$?] takes the dollar sign
    the class must follow it; when it does not, the class would have to
    start at the dollar sign itself. *)
Definition isDigitOrComma (c : ascii) : bool :=
  isDigit c || Ascii.eqb c ",".

Definition isDollarOrComma (c : ascii) : bool :=
  Ascii.eqb c "$" || Ascii.eqb c ",".

Definition matchNumberHere (s : string) : option string :=
  match s with
  | String "$" rest =>
      match takeWhile isDigitOrComma rest with
      | EmptyString => None
      | run => Some (String "$" run)
      end
  | _ =>
      match takeWhile isDigitOrComma s with
      | EmptyString => None
      | run => Some run
      end
  end.

(** [text.match(/\$?[\d,]+/)]: the leftmost match, [match[0]]. *)
Fixpoint matchNumber (text : string) : option string :=
  match matchNumberHere text with
  | Some m => Some m
  | None =>
      match text with
      | EmptyString => None
      | String _ rest => matchNumber rest
      end
  end.

Definition extractNumberFromText (text : string) : option number :=
  match matchNumber text with
  | Some match0 => Some (parseInt (removeChars isDollarOrComma match0))
  | None => None
  end.

(** The age pattern [/(\d+)\s*years?\s*old|age\s*(\d+)|i'm\s*(\d+)/i].  Every
    quantifier is followed by something its own characters cannot start, so
    the greedy choice is the only one that can succeed. *)

(** A literal of the pattern (given in lower case), ignoring case; the rest
    of the subject after it. *)
Fixpoint matchLiteral (literal s : string) : option string :=
  match literal with
  | EmptyString => Some s
  | String p literal' =>
      match s with
      | EmptyString => None
      | String c rest =>
          if Ascii.eqb (toLower c) p then matchLiteral literal' rest else None
      end
  end.

(** [(\d+)]: the run of digits and what follows it. *)
Definition matchDigits (s : string) : option (string * string) :=
  match takeWhile isDigit s with
  | EmptyString => None
  | run => Some (run, dropWhile isDigit s)
  end.

(** [(\d+)\s*years?\s*old] *)
Definition matchYearsOld (s : string) : option string :=
  match matchDigits s with
  | Some (group1, rest) =>
      match matchLiteral "year" (dropWhile isSpace rest) with
      | Some rest1 =>
          let rest2 :=
            match rest1 with
            | String c rest' =>
                if Ascii.eqb (toLower c) "s" then rest' else rest1
            | EmptyString => rest1
            end in
          match matchLiteral "old" (dropWhile isSpace rest2) with
          | Some _ => Some group1
          | None => None
          end
      | None => None
      end
  | None => None
  end.

(** [age\s*(\d+)] and [i'm\s*(\d+)] *)
Definition matchWordNumber (word s : string) : option string :=
  match matchLiteral word s with
  | Some rest => option_map fst (matchDigits (dropWhile isSpace rest))
  | None => None
  end.

(** The three alternatives in order at the head of [s]; the result is the
    group that took part, [ageMatch[1] || ageMatch[2] || ageMatch[3]]. *)
Definition matchAgeHere (s : string) : option string :=
  match matchYearsOld s with
  | Some group1 => Some group1
  | None =>
      match matchWordNumber "age" s with
      | Some group2 => Some group2
      | None => matchWordNumber "i'm" s
      end
  end.

Fixpoint matchAge (text : string) : option string :=
  match matchAgeHere text with
  | Some g => Some g
  | None =>
      match text with
      | EmptyString => None
      | String _ rest => matchAge rest
      end
  end.

(** ** The conversation context *)

Inductive RiskTolerance : Type := low | medium | high.

Module UserData.

Record UserFinancialData : Type := {
  income : option number;
  expenses : option number;
  age : option number;
  retirementAge : option number;
  currentSavings : option number;
  debt : option number;
  riskTolerance : option RiskTolerance;
  goals : option (list string)
}.

(** [{ ...userData, income }] *)
Definition with_income (v : number) (u : UserFinancialData)
    : UserFinancialData :=
  {| income := Some v;
     expenses := expenses u;
     age := age u;
     retirementAge := retirementAge u;
     currentSavings := currentSavings u;
     debt := debt u;
     riskTolerance := riskTolerance u;
     goals := goals u |}.

(** [{ ...userData, age }] *)
Definition with_age (v : number) (u : UserFinancialData)
    : UserFinancialData :=
  {| income := income u;
     expenses := expenses u;
     age := Some v;
     retirementAge := retirementAge u;
     currentSavings := currentSavings u;
     debt := debt u;
     riskTolerance := riskTolerance u;
     goals := goals u |}.

(** [{}] *)
Definition empty : UserFinancialData :=
  {| income := None; expenses := None; age := None; retirementAge := None;
     currentSavings := None; debt := None; riskTolerance := None;
     goals := None |}.

End UserData.

Export UserData.

Inductive ConversationState : Type :=
| greeting
| gathering_info
| providing_advice.

Record ChatContext : Type := {
  userData : UserFinancialData;
  conversationState : ConversationState;
  lastTopic : string
}.

(** The initial state of [useState<ChatContext>]. *)
Definition initialContext : ChatContext :=
  {| userData := UserData.empty;
     conversationState := greeting;
     lastTopic := EmptyString |}.

(** A property read in a condition and used when truthy:
    [if (x.p) { ... x.p ... }]. *)
Definition truthy_value (o : option number) : option number :=
  match o with
  | Some v => if Num.truthy v then Some v else None
  | None => None
  end.

(** [x.p || d] for an optional property. *)
Definition value_or (o : option number) (d : number) : number :=
  match truthy_value o with
  | Some v => v
  | None => d
  end.

(** ** Replies

    The handler returns a template literal.  A reply is kept as the template
    chosen and the values interpolated into it, in the order of the text,
    each with the formatting the template applies to it. *)

Inductive Template : Type :=
| TopicMenu                  (* "Hi there! ... What would you like to start with?" *)
| BudgetBreakdown            (* "Great! Let me create a simple budget for you." *)
| AskIncomeForBudget         (* "First, I need to know your monthly income." *)
| RetirementProjection       (* "Let me show you a simple retirement plan!" *)
| AskAgeAndIncome            (* "I need two quick things: 1. Your age 2. Your monthly income" *)
| EmergencyFundPlanReply     (* "Your Emergency Fund Plan:" *)
| AskIncomeForEmergencyFund  (* "To create your plan, tell me your monthly income" *)
| DebtPaths                  (* "Two paths to freedom:" *)
| AskDebtAmount              (* "To help you create a payoff plan, I need: How much you owe" *)
| StarterPortfolio           (* "Your simple starter portfolio:" *)
| BabySteps                  (* "Welcome to your money journey!" *)
| GenericPrompt.             (* "I'd love to help you with that!" *)

Inductive Hole : Type :=
| Currency (amount : number)   (* ${formatCurrency(amount)} *)
| Plain (value : number).      (* ${value} *)

Record Response : Type := {
  template : Template;
  holes : list Hole
}.

Definition fixed (t : Template) : Response := {| template := t; holes := [] |}.

(** The templates whose text asks the user for the income: "First, I need to
    know your monthly income", "I need two quick things: 1. Your age 2. Your
    monthly income", "tell me your monthly income", and the list of the
    fallback, "it helps if you share: ... Your monthly income". *)
Definition asksForIncome (t : Template) : bool :=
  match t with
  | AskIncomeForBudget | AskAgeAndIncome | AskIncomeForEmergencyFund
  | GenericPrompt => true
  | _ => false
  end.

(** The text a currency value contributes to the reply. *)
Definition currencyText (h : Hole) : option string :=
  match h with
  | Currency amount => Some (formatCurrency amount)
  | Plain _ => None
  end.

(** ** The message handler

    [chatContext] is the state of the render the handler closes over.
    [setChatContext(prev => ...)] does not change it: it queues an updater
    that React applies to the state after the handler has returned. *)

Definition Updater : Type := ChatContext -> ChatContext.

Definition Handler (A : Type) : Type := (A * list Updater)%type.

Definition ret {A : Type} (a : A) : Handler A := (a, []).

Definition bind {A B : Type} (m : Handler A) (k : A -> Handler B) : Handler B :=
  let (a, queued) := m in
  let (b, queued') := k a in
  (b, queued ++ queued').

Definition setChatContext (u : Updater) : Handler unit := (tt, [u]).

Declare Scope handler_scope.

Notation "m ;; k" := (bind m (fun _ => k))
  (at level 61, right associativity) : handler_scope.
Delimit Scope handler_scope with handler.

(** The three updaters the handler queues. *)

(** [prev => ({ ...prev, userData: { ...prev.userData, income },
    conversationState: 'gathering_info' })] *)
Definition storeIncome (income : number) : Updater := fun prev =>
  {| userData := with_income income (userData prev);
     conversationState := gathering_info;
     lastTopic := lastTopic prev |}.

(** [prev => ({ ...prev, userData: { ...prev.userData, age } })] *)
Definition storeAge (age : number) : Updater := fun prev =>
  {| userData := with_age age (userData prev);
     conversationState := conversationState prev;
     lastTopic := lastTopic prev |}.

(** [prev => ({ ...prev, lastTopic: topic })] *)
Definition storeLastTopic (topic : string) : Updater := fun prev =>
  {| userData := userData prev;
     conversationState := conversationState prev;
     lastTopic := topic |}.

Definition getBeginnerFriendlyResponse
    (chatContext : ChatContext) (userMessage : string) : Handler Response :=
  (let message := toLowerCase userMessage in
   let income := extractNumberFromText userMessage in
   (* Update user data if income is mentioned *)
   match truthy_value income with
   | Some income =>
       if includes message "income" || includes message "salary"
          || includes message "make" || includes message "earn"
       then setChatContext (storeIncome income)
       else ret tt
   | None => ret tt
   end ;;
   (* Extract age if mentioned *)
   match matchAge userMessage with
   | Some group =>
       let age := parseInt group in
       setChatContext (storeAge age)
   | None => ret tt
   end ;;
   (* Simple greeting responses *)
   if includes message "hello" || includes message "hi"
      || includes message "help"
   then ret (fixed TopicMenu)
   (* Budget *)
   else if includes message "budget" || includes message "spending"
           || includes message "money"
   then
     match truthy_value (UserData.income (userData chatContext)) with
     | Some known =>
         let budget := calculateBudget known in
         ret {| template := BudgetBreakdown;
                holes := [Currency known; Currency (needs budget);
                          Currency (wants budget); Currency (savings budget)] |}
     | None =>
         setChatContext (storeLastTopic "budget") ;;
         ret (fixed AskIncomeForBudget)
     end
   (* Retirement *)
   else if includes message "retire" || includes message "pension"
           || includes message "401k"
   then
     match truthy_value (UserData.income (userData chatContext)),
           truthy_value (UserData.age (userData chatContext)) with
     | Some knownIncome, Some knownAge =>
         let retirementPlan :=
           calculateRetirementPlan knownAge (Fin 65)
             (value_or (currentSavings (userData chatContext)) (Fin 0))
             knownIncome default_contributionRate in
         ret {| template := RetirementProjection;
                holes := [Plain (yearsToRetirement retirementPlan);
                          Currency (monthlyContribution retirementPlan);
                          Currency (projectedRetirementFund retirementPlan);
                          Currency (monthlyIncomeAtRetirement retirementPlan)] |}
     | _, _ =>
         setChatContext (storeLastTopic "retirement") ;;
         ret (fixed AskAgeAndIncome)
     end
   (* Emergency fund *)
   else if includes message "emergency"
           || (includes message "savings"
               && negb (includes message "retirement"))
   then
     match truthy_value (UserData.income (userData chatContext)) with
     | Some known =>
         let monthlyExpenses :=
           value_or (expenses (userData chatContext)) (known * Fin 0.8) in
         let emergencyPlan :=
           calculateEmergencyFund monthlyExpenses
             (value_or (currentSavings (userData chatContext)) (Fin 0))
             known default_targetMonths in
         ret {| template := EmergencyFundPlanReply;
                holes := [Currency (targetAmount emergencyPlan);
                          Currency (monthlySavingsNeeded emergencyPlan);
                          Plain (monthsToGoal emergencyPlan)] |}
     | None => ret (fixed AskIncomeForEmergencyFund)
     end
   (* Debt payoff *)
   else if includes message "debt" || includes message "loan"
           || includes message "credit"
   then
     match truthy_value (extractNumberFromText userMessage) with
     | Some debtAmount =>
         let interestRate := Fin 0.18 in
         let minimumPayment := debtAmount * Fin 0.02 in
         let aggressivePayment := minimumPayment * Fin 2 in
         let minPayoff :=
           calculateDebtPayoff debtAmount interestRate minimumPayment in
         let aggressivePayoff :=
           calculateDebtPayoff debtAmount interestRate aggressivePayment in
         ret {| template := DebtPaths;
                holes :=
                  [Currency debtAmount;
                   Currency minimumPayment;
                   Plain (Math.round (monthsToPayoff minPayoff / Fin 12));
                   Currency (totalInterest minPayoff);
                   Currency aggressivePayment;
                   Plain (Math.round (monthsToPayoff aggressivePayoff / Fin 12));
                   Currency (totalInterest aggressivePayoff);
                   Currency (totalInterest minPayoff
                             - totalInterest aggressivePayoff)] |}
     | None => ret (fixed AskDebtAmount)
     end
   (* Investment *)
   else if includes message "invest" || includes message "stock"
           || includes message "portfolio"
   then
     let age := value_or (UserData.age (userData chatContext)) (Fin 30) in
     let stockAllocation := Math.min (Fin 90) (Fin 100 - age) in
     let bondAllocation := Fin 100 - stockAllocation in
     ret {| template := StarterPortfolio;
            holes := [Plain stockAllocation; Plain bondAllocation] |}
   (* Catch-all for beginners *)
   else if includes message "start" || includes message "begin"
           || includes message "new" || includes message "first"
   then ret (fixed BabySteps)
   else ret (fixed GenericPrompt))%handler.

(** React applies the queued updaters in order, each to the state the
    previous one produced. *)
Definition commit (queued : list Updater) (state : ChatContext) : ChatContext :=
  fold_left (fun current u => u current) queued state.

(** One user message handled: the reply computed against the rendered
    context, and the context after the queued updates. *)
Definition respond (chatContext : ChatContext) (userMessage : string)
    : Response * ChatContext :=
  let (reply, queued) := getBeginnerFriendlyResponse chatContext userMessage in
  (reply, commit queued chatContext).

(** [handleSendMessage]: a blank input is ignored; otherwise the bot reply is
    produced by the handler.  Each message is taken to be sent after the
    reply to the previous one has been shown, so the handler closes over the
    committed context. *)
Definition handleSendMessage (chatContext : ChatContext) (inputValue : string)
    : option Response * ChatContext :=
  if isBlank inputValue then (None, chatContext)
  else let (reply, next) := respond chatContext inputValue in (Some reply, next).

(** The income the handler recognises in a message: a truthy number
    extracted from it, when the message has one of the income words. *)
Definition mentionsIncome (userMessage : string) : option number :=
  let message := toLowerCase userMessage in
  match truthy_value (extractNumberFromText userMessage) with
  | Some income =>
      if includes message "income" || includes message "salary"
         || includes message "make" || includes message "earn"
      then Some income
      else None
  | None => None
  end.

(** The updaters that leave [conversationState] and the income alone. *)
Inductive keepsState : Updater -> Prop :=
| keeps_age (age : number) : keepsState (storeAge age)
| keeps_topic (topic : string) : keepsState (storeLastTopic topic).

(** What no updater of the handler touches. *)
Definition sameProfile (before after : ChatContext) : Prop :=
  expenses (userData after) = expenses (userData before) /\
  retirementAge (userData after) = retirementAge (userData before) /\
  currentSavings (userData after) = currentSavings (userData before) /\
  debt (userData after) = debt (userData before) /\
  riskTolerance (userData after) = riskTolerance (userData before) /\
  goals (userData after) = goals (userData before).

(** The context after a sequence of inputs. *)
Definition session (inputs : list string) : ChatContext :=
  fold_left (fun ctx input => snd (handleSendMessage ctx input)) inputs
    initialContext.

(** The characters of a match of [/\$?[\d,]+/]. *)
Definition isTokenChar (c : ascii) : bool :=
  isDigitOrComma c || Ascii.eqb c "$".

(** What a context reached by a session holds: an income that is a positive
    whole number, an age that is a whole number and not negative, none of
    the other fields of the profile, and one of three topics. *)
Definition sessionProfile (ctx : ChatContext) : Prop :=
  (forall v, income (userData ctx) = Some v ->
             exists n : Z, (0 < n)%Z /\ v = Fin (IZR n)) /\
  (forall v, age (userData ctx) = Some v ->
             exists n : Z, (0 <= n)%Z /\ v = Fin (IZR n)) /\
  (expenses (userData ctx) = None /\
   retirementAge (userData ctx) = None /\
   currentSavings (userData ctx) = None /\
   debt (userData ctx) = None /\
   riskTolerance (userData ctx) = None /\
   goals (userData ctx) = None) /\
  (lastTopic ctx = EmptyString \/ lastTopic ctx = "budget"%string
   \/ lastTopic ctx = "retirement"%string).

(** A context whose income and age are whole numbers within the finite range
    of binary64, the income positive and the age not negative. *)
Definition withinBinary64 (ctx : ChatContext) : Prop :=
  (forall v, income (userData ctx) = Some v ->
             exists n : Z, (0 < n < 2 ^ 1024)%Z /\ v = Fin (IZR n)) /\
  (forall v, age (userData ctx) = Some v ->
             exists n : Z, (0 <= n < 2 ^ 1024)%Z /\ v = Fin (IZR n)).

(* ================================================================== *)
(** * Part II. Properties                                              *)
(* ================================================================== *)

(** ** Deciding comparisons of reals *)

Lemma Rleb_true (x y : R) : (x <= y)%R -> Rleb x y = true.
Proof. intros H; unfold Rleb; destruct (Rle_dec x y); [reflexivity | contradiction]. Qed.

Lemma Rleb_false (x y : R) : (y < x)%R -> Rleb x y = false.
Proof. intros H; unfold Rleb; destruct (Rle_dec x y); [lra | reflexivity]. Qed.

Lemma Rltb_true (x y : R) : (x < y)%R -> Rltb x y = true.
Proof. intros H; unfold Rltb; destruct (Rlt_dec x y); [reflexivity | contradiction]. Qed.

Lemma Rltb_false (x y : R) : (y <= x)%R -> Rltb x y = false.
Proof. intros H; unfold Rltb; destruct (Rlt_dec x y); [lra | reflexivity]. Qed.

Lemma Reqb_true (x y : R) : x = y -> Reqb x y = true.
Proof. intros H; unfold Reqb; destruct (Req_dec_T x y); [reflexivity | contradiction]. Qed.

Lemma Reqb_false (x y : R) : x <> y -> Reqb x y = false.
Proof. intros H; unfold Reqb; destruct (Req_dec_T x y); [contradiction | reflexivity]. Qed.

Lemma Rleb_spec (x y : R) : Rleb x y = true <-> (x <= y)%R.
Proof. unfold Rleb; destruct (Rle_dec x y); split; auto; discriminate. Qed.

Lemma Rltb_spec (x y : R) : Rltb x y = true <-> (x < y)%R.
Proof. unfold Rltb; destruct (Rlt_dec x y); split; auto; discriminate. Qed.

Lemma Reqb_spec (x y : R) : Reqb x y = true <-> x = y.
Proof. unfold Reqb; destruct (Req_dec_T x y); split; auto; discriminate. Qed.

(** ** Integer parts *)

Lemma Zceil_bounds (r : R) : (IZR (Zceil r) - 1 < r <= IZR (Zceil r))%R.
Proof.
  unfold Zceil. rewrite minus_IZR.
  destruct (archimed (- r)) as [Hgt Hle]. lra.
Qed.

Lemma Zceil_unique (r : R) (n : Z) :
  (IZR n - 1 < r <= IZR n)%R -> Zceil r = n.
Proof.
  intros [Hlo Hhi]. destruct (Zceil_bounds r) as [Clo Chi].
  assert (H1 : (IZR (Zceil r) < IZR (n + 1))%R) by (rewrite plus_IZR; lra).
  assert (H2 : (IZR n < IZR (Zceil r + 1))%R) by (rewrite plus_IZR; lra).
  apply lt_IZR in H1. apply lt_IZR in H2. lia.
Qed.


Lemma Zceil_IZR (n : Z) : Zceil (IZR n) = n.
Proof. apply Zceil_unique. lra. Qed.

Lemma Zfloor_bounds (r : R) : (IZR (Zfloor r) <= r < IZR (Zfloor r) + 1)%R.
Proof.
  unfold Zfloor. rewrite minus_IZR.
  destruct (archimed r) as [Hgt Hle]. lra.
Qed.

Lemma Zfloor_unique (r : R) (n : Z) :
  (IZR n <= r < IZR n + 1)%R -> Zfloor r = n.
Proof.
  intros [Hlo Hhi]. destruct (Zfloor_bounds r) as [Flo Fhi].
  assert (H1 : (IZR (Zfloor r) < IZR (n + 1))%R) by (rewrite plus_IZR; lra).
  assert (H2 : (IZR n < IZR (Zfloor r + 1))%R) by (rewrite plus_IZR; lra).
  apply lt_IZR in H1. apply lt_IZR in H2. lia.
Qed.

(** ** Arithmetic on finite numbers *)

Lemma div_Fin (a b : R) : b <> 0%R -> Fin a / Fin b = Fin (a / b).
Proof. intros Hb. unfold Num.div. now rewrite (Reqb_false Hb). Qed.

Lemma div_zero_zero : Fin 0 / Fin 0 = NaN.
Proof. unfold Num.div. now rewrite !(Reqb_true (eq_refl 0%R)). Qed.

Lemma log_Fin (r : R) : (0 < r)%R -> Math.log (Fin r) = Fin (ln r).
Proof. intros Hr. unfold Math.log. now rewrite (Rltb_true Hr). Qed.

Lemma leb_Fin (a b : R) : (Fin a <=? Fin b) = Rleb a b.
Proof. reflexivity. Qed.

Lemma ln_gt_0 (x : R) : (1 < x)%R -> (0 < ln x)%R.
Proof. intros Hx. rewrite <- ln_1. apply ln_increasing; lra. Qed.

(** ** calculateBudget *)

(** C1. For every income [x] the plan has [needs = 0.5 x], [wants = 0.3 x],
    [savings = 0.2 x] and the percentage fields 50, 30 and 20; for [x >= 0]
    the three amounts add up to [x] (exactly, the arithmetic of the model
    being exact). *)
Theorem calculateBudget_split (x : R) :
  let plan := calculateBudget (Fin x) in
  (needs plan = Fin (0.5 * x) /\
   wants plan = Fin (0.3 * x) /\
   savings plan = Fin (0.2 * x) /\
   needsPercentage plan = Fin 50 /\
   wantsPercentage plan = Fin 30 /\
   savingsPercentage plan = Fin 20) /\
  ((0 <= x)%R -> needs plan + wants plan + savings plan = Fin x).
Proof.
  cbn. split.
  - repeat split; f_equal; lra.
  - intros _. f_equal. lra.
Qed.

Lemma calculateBudget_split_witness :
  let plan := calculateBudget (Fin 5000) in
  (needs plan = Fin (0.5 * 5000) /\
   wants plan = Fin (0.3 * 5000) /\
   savings plan = Fin (0.2 * 5000) /\
   needsPercentage plan = Fin 50 /\
   wantsPercentage plan = Fin 30 /\
   savingsPercentage plan = Fin 20) /\
  needs plan + wants plan + savings plan = Fin 5000.
Proof.
  destruct (calculateBudget_split 5000) as [Hfields Hsum].
  split; [exact Hfields | apply Hsum; lra].
Defined.

(** The split of an infinite income is infinite throughout. *)
Lemma calculateBudget_PInf :
  let plan := calculateBudget PInf in
  needs plan = PInf /\ wants plan = PInf /\ savings plan = PInf /\
  needs plan + wants plan + savings plan = PInf.
Proof.
  cbn. unfold Num.mul.
  rewrite !Reqb_false, !Rltb_true by lra. cbn. auto.
Qed.

(** ** calculateDebtPayoff *)

Section DebtPayoff.

Variables balance rate payment : R.

Let result := calculateDebtPayoff (Fin balance) (Fin rate) (Fin payment).

Lemma calculateDebtPayoff_never :
  (payment <= balance * rate / 12)%R ->
  result = {| monthsToPayoff := PInf; totalInterest := PInf; totalPaid := PInf |}.
Proof.
  intros H. unfold result, calculateDebtPayoff.
  cbn [Num.mul]. rewrite div_Fin by lra. rewrite leb_Fin, Rleb_true by lra.
  reflexivity.
Qed.

Lemma calculateDebtPayoff_amortizing :
  (0 <= balance)%R -> (0 < rate)%R -> (balance * rate / 12 < payment)%R ->
  result =
    let months := IZR (Zceil (months_exact balance rate payment)) in
    {| monthsToPayoff := Fin months;
       totalInterest := Fin (months * payment - balance);
       totalPaid := Fin (months * payment) |}.
Proof.
  intros Hb Hr Hp. unfold result, calculateDebtPayoff.
  cbn [Num.mul]. rewrite !div_Fin by lra. rewrite leb_Fin, Rleb_false by lra.
  assert (Hpay : (0 < payment)%R) by nra.
  assert (Hratio : (balance * (rate / 12) / payment < 1)%R).
  { apply Rmult_lt_reg_r with payment; [lra|]. field_simplify; lra. }
  cbn [Num.mul Num.sub Num.neg Num.add].
  rewrite div_Fin by lra.
  cbn [Num.mul Num.sub Num.neg Num.add].
  rewrite !log_Fin by lra.
  cbn [Num.neg].
  rewrite div_Fin by (apply Rgt_not_eq, ln_gt_0; lra).
  cbn [Math.ceil Num.mul Num.sub Num.neg Num.add].
  unfold months_exact.
  replace (1 + - (balance * (rate / 12) / payment))%R
    with (1 - balance * (rate / 12) / payment)%R by lra.
  f_equal.
Qed.

Lemma calculateDebtPayoff_zero_rate :
  rate = 0%R -> (0 < payment)%R ->
  result = {| monthsToPayoff := NaN; totalInterest := NaN; totalPaid := NaN |}.
Proof.
  unfold result, calculateDebtPayoff. intros -> Hp.
  cbn [Num.mul]. rewrite !div_Fin by lra. rewrite leb_Fin, Rleb_false by lra.
  cbn [Num.sub Num.neg Num.add].
  replace (1 + - (balance * (0 / 12) / payment))%R with 1%R by (field; lra).
  replace (1 + 0 / 12)%R with 1%R by lra.
  rewrite !log_Fin by lra. rewrite ln_1.
  cbn [Num.neg]. replace (- 0)%R with 0%R by lra.
  rewrite div_zero_zero. reflexivity.
Qed.

End DebtPayoff.

(** In exact arithmetic the guard is the only way to the sentinel: for
    non-negative balance, rate and payment the result is all [Infinity]
    exactly when the payment does not exceed the monthly interest
    [balance * rate / 12].  This is the formula as mathematics; what the
    code returns in binary64 is the subject of the section on [F64]
    below. *)
Theorem calculateDebtPayoff_sentinel_iff (balance rate payment : R) :
  (0 <= balance)%R -> (0 <= rate)%R -> (0 <= payment)%R ->
  let result := calculateDebtPayoff (Fin balance) (Fin rate) (Fin payment) in
  (is_sentinel result <-> (payment <= balance * rate / 12)%R) /\
  (is_PInf (monthsToPayoff result) = true <-> is_sentinel result) /\
  (forall r : R, is_PInf (Fin r) = false).
Proof.
  intros Hb Hr Hp result.
  assert (Hcases :
    ((payment <= balance * rate / 12)%R /\ is_sentinel result) \/
    ((balance * rate / 12 < payment)%R /\
     is_PInf (monthsToPayoff result) = false)).
  { destruct (Rle_lt_dec payment (balance * rate / 12)) as [Hle | Hgt].
    - left. split; [assumption|]. unfold result.
      rewrite calculateDebtPayoff_never by assumption. repeat split.
    - right. split; [assumption|]. unfold result.
      destruct (Req_dec_T rate 0) as [H0 | Hn0].
      + rewrite calculateDebtPayoff_zero_rate; [reflexivity | assumption |].
        subst rate. lra.
      + rewrite calculateDebtPayoff_amortizing by lra. reflexivity. }
  split; [split | split; [split |]].
  - intros [Hm _]. destruct Hcases as [[Hle _] | [_ Hfin]]; [assumption|].
    rewrite Hm in Hfin. discriminate.
  - intros Hle. destruct Hcases as [[_ Hs] | [Hgt _]]; [assumption | lra].
  - intros Hinf. destruct Hcases as [[_ Hs] | [_ Hfin]]; [apply Hs|].
    rewrite Hinf in Hfin. discriminate.
  - intros [-> _]. reflexivity.
  - reflexivity.
Qed.

Lemma calculateDebtPayoff_sentinel_iff_witness :
  let result := calculateDebtPayoff (Fin 5000) (Fin 0.18) (Fin 50) in
  (is_sentinel result <-> (50 <= 5000 * 0.18 / 12)%R) /\
  (is_PInf (monthsToPayoff result) = true <-> is_sentinel result) /\
  (forall r : R, is_PInf (Fin r) = false).
Proof. apply (@calculateDebtPayoff_sentinel_iff 5000 0.18 50); lra. Defined.

(** The closed form in exact arithmetic: in the amortizing case (positive
    balance and rate, payment above the monthly interest) the months are the
    closed form rounded up, the total paid is months times payment and the
    interest is the total paid minus the balance. *)
Theorem calculateDebtPayoff_closed_form (balance rate payment : R) :
  (0 < balance)%R -> (0 < rate)%R -> (balance * rate / 12 < payment)%R ->
  let result := calculateDebtPayoff (Fin balance) (Fin rate) (Fin payment) in
  let months :=
    IZR (Zceil (- ln (1 - balance * (rate / 12) / payment)
                / ln (1 + rate / 12))) in
  monthsToPayoff result = Fin months /\
  totalPaid result = Fin (months * payment) /\
  totalInterest result = Fin (months * payment - balance) /\
  totalPaid result = monthsToPayoff result * Fin payment /\
  totalInterest result = totalPaid result - Fin balance.
Proof.
  intros Hb Hr Hp result months. unfold result.
  rewrite calculateDebtPayoff_amortizing by lra.
  cbn. fold (months_exact balance rate payment). repeat split.
Qed.

Lemma calculateDebtPayoff_closed_form_witness :
  let result := calculateDebtPayoff (Fin 5000) (Fin 0.18) (Fin 100) in
  let months :=
    IZR (Zceil (- ln (1 - 5000 * (0.18 / 12) / 100) / ln (1 + 0.18 / 12))) in
  monthsToPayoff result = Fin months /\
  totalPaid result = Fin (months * 100) /\
  totalInterest result = Fin (months * 100 - 5000) /\
  totalPaid result = monthsToPayoff result * Fin 100 /\
  totalInterest result = totalPaid result - Fin 5000.
Proof. apply (@calculateDebtPayoff_closed_form 5000 0.18 100); lra. Defined.

(** ** How the payoff time depends on the payment *)

Lemma ln_le (x y : R) : (0 < x)%R -> (x <= y)%R -> (ln x <= ln y)%R.
Proof.
  intros Hx [Hlt | Heq].
  - left. now apply ln_increasing.
  - right. now rewrite Heq.
Qed.

Lemma Rdiv_le_r (a b c : R) : (0 < c)%R -> (a <= b)%R -> (a / c <= b / c)%R.
Proof.
  intros Hc Hab. unfold Rdiv. apply Rmult_le_compat_r; [|assumption].
  left. now apply Rinv_0_lt_compat.
Qed.

Lemma Rlt_div_iff (a b c : R) : (0 < c)%R -> (a * c < b)%R -> (a < b / c)%R.
Proof.
  intros Hc H. apply Rmult_lt_reg_r with c; [assumption|].
  unfold Rdiv. rewrite Rmult_assoc, Rinv_l by lra. lra.
Qed.

Lemma Rle_div_iff (a b c : R) : (0 < c)%R -> (b <= a * c)%R -> (b / c <= a)%R.
Proof.
  intros Hc H. apply Rmult_le_reg_r with c; [assumption|].
  unfold Rdiv. rewrite Rmult_assoc, Rinv_l by lra. lra.
Qed.

(** The part [1 - balance * monthlyRate / payment] under the logarithm lies
    in [(0, 1]] in the amortizing case. *)
Lemma remaining_share_bounds (balance rate payment : R) :
  (0 <= balance)%R -> (0 < rate)%R -> (balance * rate / 12 < payment)%R ->
  (0 < 1 - balance * (rate / 12) / payment <= 1)%R.
Proof.
  intros Hb Hr Hp.
  assert (Hpay : (0 < payment)%R) by nra.
  assert (Hinv : (0 < / payment)%R) by now apply Rinv_0_lt_compat.
  assert (Hlt : (balance * (rate / 12) / payment < 1)%R).
  { apply Rmult_lt_reg_r with payment; [lra|]. field_simplify; lra. }
  assert (Hge : (0 <= balance * (rate / 12) / payment)%R).
  { unfold Rdiv at 2. apply Rmult_le_pos; nra. }
  lra.
Qed.



(** The rounded-up month count is [m + 1] exactly when the debt outlives [m]
    payments and not [m + 1]. *)
Lemma Zceil_months_exact (balance rate payment : R) (m : nat) :
  (0 <= balance)%R -> (0 < rate)%R -> (balance * rate / 12 < payment)%R ->
  ((1 + rate / 12) ^ m * (1 - balance * (rate / 12) / payment) < 1)%R ->
  (1 <= (1 + rate / 12) ^ S m * (1 - balance * (rate / 12) / payment))%R ->
  Zceil (months_exact balance rate payment) = Z.of_nat (S m).
Proof.
  intros Hb Hr Hp Hlo Hhi.
  destruct (remaining_share_bounds Hb Hr Hp) as [Hpos _].
  set (x := (1 - balance * (rate / 12) / payment)%R) in *.
  set (q := (1 + rate / 12)%R) in *.
  assert (Hq : (0 < q)%R) by (unfold q; lra).
  assert (HL : (0 < ln q)%R) by (apply ln_gt_0; unfold q; lra).
  assert (Hlo' : (INR m * ln q + ln x < 0)%R).
  { rewrite <- ln_pow, <- ln_mult, <- ln_1; auto using pow_lt.
    apply ln_increasing; [|assumption].
    apply Rmult_lt_0_compat; auto using pow_lt. }
  assert (Hhi' : (0 <= INR (S m) * ln q + ln x)%R).
  { rewrite <- ln_pow, <- ln_mult, <- ln_1; auto using pow_lt.
    apply ln_le; lra. }
  apply Zceil_unique. rewrite <- INR_IZR_INZ.
  unfold months_exact. fold x q. split.
  - apply Rlt_div_iff; [assumption|]. rewrite S_INR in *. lra.
  - apply Rle_div_iff; [assumption|]. lra.
Qed.






(** ** calculateDebtPayoff in binary64 *)


(** The exact value of a binary64 literal, as a quotient of integers. *)
Ltac exact_values :=
  unfold F64.to_R;
  repeat match goal with
  | |- context [Prim2SF ?x] =>
      let v := eval vm_compute in (Prim2SF x) in change (Prim2SF x) with v
  end;
  cbv iota beta; cbv [powerRZ Pos.to_nat Pos.iter_op Nat.add].




(** The other half at its edge: a payment of 75 on 5000 at 18% is more than
    the exact interest on the number that stands for 0.18, but the product
    rounds to 900 and the guard holds. *)
Lemma calculateDebtPayoff_guard_rounds :
  (75 <=? 5000 * 0.18 / 12)%float = true /\
  F64.calculateDebtPayoff 5000 0.18 75 = F64.sentinel /\
  (F64.to_R 5000 * F64.to_R 0.18 / 12 < F64.to_R 75)%R.
Proof.
  split; [vm_compute; reflexivity|]. split; [vm_compute; reflexivity|].
  exact_values. lra.
Qed.

(** A rate so small that [1 + rate / 12] rounds to 1 makes both logarithms
    zero and every figure [NaN]. *)
Lemma calculateDebtPayoff_tiny_rate :
  F64.calculateDebtPayoff 1000 1e-17 100
  = {| F64.monthsToPayoff := nan;
       F64.totalInterest := nan;
       F64.totalPaid := nan |}.
Proof. vm_compute. reflexivity. Qed.

(** C3.  A debt of 1000 at 6% paid with 1005 is gone after one payment: the
    month's interest is 5.  The closed form, taken at the exact values of
    the three numbers, says so: one month, 1005 paid, 5 of interest.  The
    code returns two months, 2010 paid and 1010 of interest: the quotient of
    the two logarithms comes out a little above 1 and [Math.ceil] takes it
    to 2. *)
Theorem calculateDebtPayoff_a_month_too_many :
  F64.calculateDebtPayoff 1000 0.06 1005
  = {| F64.monthsToPayoff := 2;
       F64.totalInterest := 1010;
       F64.totalPaid := 2010 |} /\
  calculateDebtPayoff (Fin (F64.to_R 1000)) (Fin (F64.to_R 0.06))
    (Fin (F64.to_R 1005))
  = {| monthsToPayoff := Fin 1;
       totalInterest := Fin 5;
       totalPaid := Fin 1005 |}.
Proof.
  split; [vm_compute; reflexivity|].
  assert (Hb : F64.to_R 1000 = 1000%R) by (exact_values; lra).
  assert (Hp : F64.to_R 1005 = 1005%R) by (exact_values; lra).
  assert (Hr : (0.0599 < F64.to_R 0.06 < 0.06)%R) by (exact_values; lra).
  rewrite Hb, Hp. set (rate := F64.to_R 0.06) in *.
  rewrite calculateDebtPayoff_amortizing by lra.
  rewrite (@Zceil_months_exact 1000 rate 1005 0);
    [ | lra | lra | lra | simpl pow; nra | simpl pow; nra ].
  cbv zeta. f_equal; f_equal; simpl IZR; lra.
Qed.

(** The same with two payments of 10201 on 20100 at 12%: the code returns
    three months. *)
Lemma calculateDebtPayoff_three_for_two :
  F64.calculateDebtPayoff 20100 0.12 10201
  = {| F64.monthsToPayoff := 3;
       F64.totalInterest := 10503;
       F64.totalPaid := 30603 |} /\
  Zceil (months_exact (F64.to_R 20100) (F64.to_R 0.12) (F64.to_R 10201)) = 2%Z.
Proof.
  split; [vm_compute; reflexivity|].
  assert (Hb : F64.to_R 20100 = 20100%R) by (exact_values; lra).
  assert (Hp : F64.to_R 10201 = 10201%R) by (exact_values; lra).
  assert (Hr : (0.1199 < F64.to_R 0.12 < 0.12)%R) by (exact_values; lra).
  rewrite Hb, Hp. set (rate := F64.to_R 0.12) in *.
  apply (@Zceil_months_exact 20100 rate 10201 1);
    [ lra | lra | lra | simpl pow; nra | simpl pow ].
  set (m := (rate / 12)%R).
  assert (Hm : (0 < m < 0.01)%R) by (unfold m; lra).
  replace ((1 + m) * ((1 + m) * 1) * (1 - 20100 * m / 10201))%R
    with (1 + m * (1 / 100 - m) * (20100 * m + 30200) / 10201)%R by field.
  assert (H : (0 <= m * (1 / 100 - m) * (20100 * m + 30200) / 10201)%R).
  { apply Rmult_le_pos; [|lra].
    apply Rmult_le_pos; [|lra]. apply Rmult_le_pos; lra. }
  lra.
Qed.

(** ** calculateRetirementPlan *)

Lemma Rpower_pos (x y : R) : (0 < Rpower x y)%R.
Proof. unfold Rpower. apply exp_pos. Qed.

Lemma Rpower_gt_1 (x y : R) : (1 < x)%R -> (0 < y)%R -> (1 < Rpower x y)%R.
Proof.
  intros Hx Hy. rewrite <- (Rpower_O x) by lra. now apply Rpower_lt.
Qed.

Lemma pow_Fin (b e : R) :
  (0 < b)%R -> e <> 0%R -> Math.pow (Fin b) (Fin e) = Fin (Rpower b e).
Proof.
  intros Hb He. unfold Math.pow.
  now rewrite (Reqb_false He), (Rltb_true Hb).
Qed.

(** At finite inputs and a non-zero horizon every step of the projection
    stays finite. *)
Lemma calculateRetirementPlan_fund
    (currentAge retirementAge currentSavings monthlyIncome contributionRate : R) :
  (retirementAge - currentAge <> 0)%R ->
  projectedRetirementFund
    (calculateRetirementPlan (Fin currentAge) (Fin retirementAge)
       (Fin currentSavings) (Fin monthlyIncome) (Fin contributionRate))
  = Fin (fund_exact (retirementAge - currentAge) currentSavings monthlyIncome
           contributionRate).
Proof.
  intros Hy. unfold calculateRetirementPlan, fund_exact.
  cbn [projectedRetirementFund Num.sub Num.neg Num.add Num.mul].
  rewrite div_Fin by lra.
  cbn [Num.sub Num.neg Num.add Num.mul].
  rewrite !pow_Fin by lra.
  cbn [Num.sub Num.neg Num.add Num.mul].
  rewrite div_Fin by lra.
  cbn [Num.sub Num.neg Num.add Num.mul].
  f_equal.
Qed.

Section Fund.

Variables years currentSavings monthlyIncome contributionRate : R.
Hypothesis years_pos : (0 < years)%R.

Lemma annuity_factor_pos :
  (0 < (Rpower (1 + 0.07 / 12) (years * 12) - 1) / (0.07 / 12))%R.
Proof.
  apply Rdiv_lt_0_compat; [|lra].
  assert (H : (1 < Rpower (1 + 0.07 / 12) (years * 12))%R)
    by (apply Rpower_gt_1; lra).
  lra.
Qed.

Lemma fund_exact_contributionRate (rate' : R) :
  (0 <= monthlyIncome)%R -> (contributionRate <= rate')%R ->
  (fund_exact years currentSavings monthlyIncome contributionRate
   <= fund_exact years currentSavings monthlyIncome rate')%R.
Proof.
  intros Hmi Hle. unfold fund_exact.
  pose proof annuity_factor_pos as HA.
  set (A := ((Rpower (1 + 0.07 / 12) (years * 12) - 1) / (0.07 / 12))%R) in *.
  assert (H : (monthlyIncome * contributionRate <= monthlyIncome * rate')%R)
    by now apply Rmult_le_compat_l.
  nra.
Qed.

Lemma fund_exact_currentSavings (savings' : R) :
  (currentSavings <= savings')%R ->
  (fund_exact years currentSavings monthlyIncome contributionRate
   <= fund_exact years savings' monthlyIncome contributionRate)%R.
Proof.
  intros Hle. unfold fund_exact.
  pose proof (Rpower_pos (1 + 0.07) years) as HP.
  nra.
Qed.

Lemma fund_exact_years (years' : R) :
  (0 <= currentSavings)%R -> (0 <= monthlyIncome * contributionRate)%R ->
  (years <= years')%R ->
  (fund_exact years currentSavings monthlyIncome contributionRate
   <= fund_exact years' currentSavings monthlyIncome contributionRate)%R.
Proof.
  intros Hcs Hmc Hle. unfold fund_exact.
  assert (H1 : (Rpower (1 + 0.07) years <= Rpower (1 + 0.07) years')%R)
    by (apply Rle_Rpower; lra).
  assert (H2 : (Rpower (1 + 0.07 / 12) (years * 12)
                <= Rpower (1 + 0.07 / 12) (years' * 12))%R)
    by (apply Rle_Rpower; lra).
  assert (H3 : ((Rpower (1 + 0.07 / 12) (years * 12) - 1) / (0.07 / 12)
                <= (Rpower (1 + 0.07 / 12) (years' * 12) - 1) / (0.07 / 12))%R)
    by (apply Rdiv_le_r; lra).
  apply Rplus_le_compat.
  - now apply Rmult_le_compat_l.
  - now apply Rmult_le_compat_l.
Qed.

(** With a negative contribution the annuity part shrinks as the horizon
    grows. *)
Lemma fund_exact_years_negative (years' : R) :
  (monthlyIncome * contributionRate < 0)%R -> (years < years')%R ->
  (fund_exact years' 0 monthlyIncome contributionRate
   < fund_exact years 0 monthlyIncome contributionRate)%R.
Proof.
  intros Hmc Hlt. unfold fund_exact.
  assert (H2 : (Rpower (1 + 0.07 / 12) (years * 12)
                < Rpower (1 + 0.07 / 12) (years' * 12))%R)
    by (apply Rpower_lt; lra).
  assert (H3 : ((Rpower (1 + 0.07 / 12) (years * 12) - 1) / (0.07 / 12)
                < (Rpower (1 + 0.07 / 12) (years' * 12) - 1) / (0.07 / 12))%R).
  { unfold Rdiv. apply Rmult_lt_compat_r; [|lra].
    apply Rinv_0_lt_compat; lra. }
  nra.
Qed.

End Fund.

(** C8 as stated fails: nothing keeps [contributionRate] non-negative, and
    with a negative one a longer horizon projects a smaller fund. *)
Lemma projectedRetirementFund_years_not_monotone :
  ~ (forall age1 retire1 age2 retire2 savings income rate : R,
       (0 < retire1 - age1)%R -> (retire1 - age1 <= retire2 - age2)%R ->
       (0 <= income)%R -> (0 <= savings)%R ->
       (projectedRetirementFund
          (calculateRetirementPlan (Fin age1) (Fin retire1) (Fin savings)
             (Fin income) (Fin rate))
        <=? projectedRetirementFund
          (calculateRetirementPlan (Fin age2) (Fin retire2) (Fin savings)
             (Fin income) (Fin rate))) = true).
Proof.
  intros H.
  specialize (H 30 31 30 32 0 1000 (-0.15))%R.
  rewrite !calculateRetirementPlan_fund in H by lra.
  rewrite leb_Fin in H.
  assert (Hlt : (fund_exact (32 - 30) 0 1000 (-0.15)
                 < fund_exact (31 - 30) 0 1000 (-0.15))%R)
    by (apply fund_exact_years_negative; lra).
  rewrite Rleb_false in H by exact Hlt.
  assert (Habs : false = true) by (apply H; lra). discriminate.
Qed.

(** C8, amended. Over a positive horizon and with non-negative income and
    savings, the projected fund does not decrease when [contributionRate]
    grows, nor when [currentSavings] grows, nor - provided the contribution
    rate is non-negative as well - when the horizon
    [retirementAge - currentAge] grows. *)
Theorem projectedRetirementFund_monotone
    (currentAge retirementAge currentSavings monthlyIncome contributionRate : R) :
  (0 < retirementAge - currentAge)%R ->
  (0 <= monthlyIncome)%R -> (0 <= currentSavings)%R ->
  let fund := fun age retire savings rate =>
    projectedRetirementFund
      (calculateRetirementPlan (Fin age) (Fin retire) (Fin savings)
         (Fin monthlyIncome) (Fin rate)) in
  let here := fund currentAge retirementAge currentSavings contributionRate in
  (forall rate' : R, (contributionRate <= rate')%R ->
     (here <=? fund currentAge retirementAge currentSavings rate') = true) /\
  (forall savings' : R, (currentSavings <= savings')%R ->
     (here <=? fund currentAge retirementAge savings' contributionRate) = true) /\
  ((0 <= contributionRate)%R ->
   forall age' retire' : R,
     (retirementAge - currentAge <= retire' - age')%R ->
     (here <=? fund age' retire' currentSavings contributionRate) = true).
Proof.
  intros Hy Hmi Hcs fund here. unfold here, fund.
  split; [|split].
  - intros rate' Hle. rewrite !calculateRetirementPlan_fund by lra.
    rewrite leb_Fin. apply Rleb_true. now apply fund_exact_contributionRate.
  - intros savings' Hle. rewrite !calculateRetirementPlan_fund by lra.
    rewrite leb_Fin. apply Rleb_true. now apply fund_exact_currentSavings.
  - intros Hcr age' retire' Hle. rewrite !calculateRetirementPlan_fund by lra.
    rewrite leb_Fin. apply Rleb_true.
    apply fund_exact_years; try assumption. now apply Rmult_le_pos.
Qed.

Lemma projectedRetirementFund_monotone_witness :
  let fund := fun age retire savings rate =>
    projectedRetirementFund
      (calculateRetirementPlan (Fin age) (Fin retire) (Fin savings)
         (Fin 6000) (Fin rate)) in
  let here := fund 30%R 65%R 0%R 0.15%R in
  (forall rate' : R, (0.15 <= rate')%R ->
     (here <=? fund 30%R 65%R 0%R rate') = true) /\
  (forall savings' : R, (0 <= savings')%R ->
     (here <=? fund 30%R 65%R savings' 0.15%R) = true) /\
  ((0 <= 0.15)%R ->
   forall age' retire' : R,
     (65 - 30 <= retire' - age')%R ->
     (here <=? fund age' retire' 0%R 0.15%R) = true).
Proof. apply (@projectedRetirementFund_monotone 30 65 0 6000 0.15); lra. Defined.
(** ** The updates the handler queues *)

Ltac destruct_match :=
  match goal with
  | |- context [match ?x with _ => _ end] =>
      lazymatch x with
      | context [match _ with _ => _ end] => fail
      | _ => destruct x eqn:?
      end
  end.

Lemma queued_updaters (chatContext : ChatContext) (userMessage : string) :
  exists rest : list Updater,
    snd (getBeginnerFriendlyResponse chatContext userMessage)
    = match mentionsIncome userMessage with
      | Some v => [storeIncome v]
      | None => []
      end ++ rest
    /\ Forall keepsState rest.
Proof.
  unfold getBeginnerFriendlyResponse, mentionsIncome, bind, ret, setChatContext.
  set (message := toLowerCase userMessage).
  set (words := includes message "income" || includes message "salary"
                || includes message "make" || includes message "earn").
  destruct (truthy_value (extractNumberFromText userMessage)) as [v|] eqn:Hv;
    [destruct words|];
    (destruct (matchAge userMessage) as [g|];
     repeat destruct_match; cbn [snd app];
     eexists; (split; [reflexivity|]);
     repeat constructor).
Qed.

Lemma commit_app (q1 q2 : list Updater) (state : ChatContext) :
  commit (q1 ++ q2) state = commit q2 (commit q1 state).
Proof. unfold commit. apply fold_left_app. Qed.

Lemma commit_cons (u : Updater) (queued : list Updater) (state : ChatContext) :
  commit (u :: queued) state = commit queued (u state).
Proof. reflexivity. Qed.

Lemma commit_keepsState (queued : list Updater) (state : ChatContext) :
  Forall keepsState queued ->
  conversationState (commit queued state) = conversationState state /\
  income (userData (commit queued state)) = income (userData state).
Proof.
  intros H. revert state. induction H as [|u rest Hu _ IH]; intros state.
  - split; reflexivity.
  - rewrite commit_cons. destruct (IH (u state)) as [-> ->].
    destruct Hu; split; reflexivity.
Qed.

Lemma sameProfile_refl (c : ChatContext) : sameProfile c c.
Proof. repeat split. Qed.

Lemma sameProfile_trans (a b c : ChatContext) :
  sameProfile a b -> sameProfile b c -> sameProfile a c.
Proof.
  unfold sameProfile. intros (?&?&?&?&?&?) (?&?&?&?&?&?).
  repeat split; etransitivity; eassumption.
Qed.

Lemma commit_sameProfile (queued : list Updater) (state : ChatContext) :
  Forall (fun u => forall c, sameProfile c (u c)) queued ->
  sameProfile state (commit queued state).
Proof.
  intros H. revert state. induction H as [|u rest Hu _ IH]; intros state.
  - apply sameProfile_refl.
  - rewrite commit_cons. eapply sameProfile_trans; [apply Hu | apply IH].
Qed.

Lemma respond_context (chatContext : ChatContext) (userMessage : string) :
  snd (respond chatContext userMessage)
  = commit (snd (getBeginnerFriendlyResponse chatContext userMessage)) chatContext.
Proof.
  unfold respond.
  now destruct (getBeginnerFriendlyResponse chatContext userMessage).
Qed.

Lemma respond_state (chatContext : ChatContext) (userMessage : string) :
  let next := snd (respond chatContext userMessage) in
  match mentionsIncome userMessage with
  | Some v =>
      conversationState next = gathering_info /\
      income (userData next) = Some v
  | None =>
      conversationState next = conversationState chatContext /\
      income (userData next) = income (userData chatContext)
  end.
Proof.
  cbv zeta. rewrite respond_context.
  destruct (queued_updaters chatContext userMessage) as (rest & -> & Hrest).
  rewrite commit_app.
  destruct (mentionsIncome userMessage) as [v|];
    [rewrite commit_cons | change (commit [] chatContext) with chatContext];
    match goal with |- context [commit rest ?s] =>
      destruct (@commit_keepsState rest s Hrest) as [-> ->] end;
    split; reflexivity.
Qed.

(** C10. Handling one message changes at most the income and the age of
    [userData], [conversationState] and [lastTopic]: expenses, retirement
    age, current savings, debt, risk tolerance and goals are what they were,
    whatever the text and the context. *)
Theorem router_frame (chatContext : ChatContext) (userMessage : string) :
  let next := snd (respond chatContext userMessage) in
  expenses (userData next) = expenses (userData chatContext) /\
  retirementAge (userData next) = retirementAge (userData chatContext) /\
  currentSavings (userData next) = currentSavings (userData chatContext) /\
  debt (userData next) = debt (userData chatContext) /\
  riskTolerance (userData next) = riskTolerance (userData chatContext) /\
  goals (userData next) = goals (userData chatContext).
Proof.
  cbv zeta. rewrite respond_context.
  destruct (queued_updaters chatContext userMessage) as (rest & -> & Hrest).
  apply commit_sameProfile. apply Forall_app. split.
  - destruct (mentionsIncome userMessage); repeat constructor.
  - eapply Forall_impl; [|exact Hrest].
    intros u [v|t] c; repeat split.
Qed.

Lemma handleSendMessage_context (chatContext : ChatContext) (inputValue : string) :
  snd (handleSendMessage chatContext inputValue)
  = if isBlank inputValue then chatContext
    else snd (respond chatContext inputValue).
Proof.
  unfold handleSendMessage. destruct (isBlank inputValue); [reflexivity|].
  now destruct (respond chatContext inputValue).
Qed.

Lemma handleSendMessage_state (chatContext : ChatContext) (inputValue : string) :
  let next := snd (handleSendMessage chatContext inputValue) in
  conversationState next = conversationState chatContext \/
  (conversationState next = gathering_info /\
   exists v : number,
     mentionsIncome inputValue = Some v /\ income (userData next) = Some v).
Proof.
  cbv zeta. rewrite handleSendMessage_context.
  destruct (isBlank inputValue); [now left|].
  pose proof (respond_state chatContext inputValue) as H. cbv zeta in H.
  destruct (mentionsIncome inputValue) as [v|].
  - right. destruct H as [Hs Hi]. split; [assumption|]. now exists v.
  - left. apply H.
Qed.

Lemma fold_never_providing_advice (inputs : list string) (start : ChatContext) :
  conversationState start <> providing_advice ->
  conversationState
    (fold_left (fun ctx input => snd (handleSendMessage ctx input)) inputs start)
  <> providing_advice.
Proof.
  revert start. induction inputs as [|input inputs IH]; intros start Hstart.
  - exact Hstart.
  - cbn [fold_left]. apply IH.
    destruct (handleSendMessage_state start input) as [Heq | [Heq _]];
      rewrite Heq; [assumption | discriminate].
Qed.

(** ** extractNumberFromText *)

Example extractNumberFromText_5000 :
  extractNumberFromText "I make $5,000 per month" = Some (Fin 5000).
Proof. reflexivity. Qed.

Example extractNumberFromText_3000 :
  extractNumberFromText "3000" = Some (Fin 3000).
Proof. reflexivity. Qed.

Example extractNumberFromText_none :
  extractNumberFromText "no numbers here" = None.
Proof. reflexivity. Qed.

(** C6, evaluated. The class [[\d,]] lets a comma alone be the first
    token: the result is then [NaN], neither [null] nor the number that
    follows, and the handler stores no income. *)
Theorem extractNumberFromText_lone_comma :
  extractNumberFromText "no, thanks" = Some NaN /\
  extractNumberFromText "Well, I make $5,000 per month" = Some NaN /\
  mentionsIncome "Well, I make $5,000 per month" = None.
Proof. repeat split. Qed.

(** No match, hence [null], exactly for the texts without digit and comma. *)
Lemma matchNumber_None (text : string) :
  matchNumber text = None <->
  allChars (fun c => negb (isDigitOrComma c)) text = true.
Proof.
  induction text as [|c rest IH]; [cbn; tauto|].
  cbn [matchNumber allChars].
  destruct (matchNumberHere (String c rest)) as [m|] eqn:Hhere.
  - split; [discriminate|]. intros H. exfalso.
    apply andb_prop in H as [Hc Hrest].
    unfold matchNumberHere in Hhere.
    destruct (Ascii.eqb c "$") eqn:Hd.
    + apply Ascii.eqb_eq in Hd. subst c.
      destruct rest as [|d rest']; [discriminate|].
      cbn in Hrest. apply andb_prop in Hrest as [Hdp _].
      cbn in Hhere. destruct (isDigitOrComma d); discriminate.
    + assert (Htw : takeWhile isDigitOrComma (String c rest) = EmptyString).
      { cbn. now destruct (isDigitOrComma c). }
      rewrite Htw in Hhere.
      destruct c as [[] [] [] [] [] [] [] []]; discriminate.
  - rewrite IH. assert (Hc : isDigitOrComma c = false).
    { unfold matchNumberHere in Hhere.
      destruct (isDigitOrComma c) eqn:Hp; [|reflexivity]. exfalso.
      assert (Htw : takeWhile isDigitOrComma (String c rest)
                    = String c (takeWhile isDigitOrComma rest))
        by (cbn; now rewrite Hp).
      rewrite Htw in Hhere.
      destruct c as [[] [] [] [] [] [] [] []]; discriminate. }
    rewrite Hc. cbn. tauto.
Qed.

Lemma extractNumberFromText_null (text : string) :
  extractNumberFromText text = None <->
  allChars (fun c => negb (isDigitOrComma c)) text = true.
Proof.
  rewrite <- matchNumber_None. unfold extractNumberFromText.
  destruct (matchNumber text); split; intros H; try discriminate; reflexivity.
Qed.

(** ** The conversation state *)

(** A blank input has no number in it. *)
Lemma allChars_weaken (p q : ascii -> bool) (s : string) :
  (forall c, p c = true -> q c = true) ->
  allChars p s = true -> allChars q s = true.
Proof.
  intros Hpq. induction s as [|c rest IH]; [reflexivity|].
  cbn. intros H. apply andb_prop in H as [Hc Hrest].
  now rewrite (Hpq c Hc), (IH Hrest).
Qed.

Lemma dropWhile_empty (p : ascii -> bool) (s : string) :
  dropWhile p s = EmptyString -> allChars p s = true.
Proof.
  induction s as [|c rest IH]; [reflexivity|].
  cbn. destruct (p c); [exact IH | discriminate].
Qed.

Lemma isSpace_not_digit (c : ascii) :
  isSpace c = true -> negb (isDigitOrComma c) = true.
Proof.
  destruct c as [[] [] [] [] [] [] [] []]; cbn; intros H;
    (reflexivity || discriminate).
Qed.

Lemma isBlank_mentionsIncome (input : string) :
  isBlank input = true -> mentionsIncome input = None.
Proof.
  unfold isBlank. intros H.
  assert (Hnone : extractNumberFromText input = None).
  { apply extractNumberFromText_null.
    apply allChars_weaken with (p := isSpace); [apply isSpace_not_digit|].
    apply dropWhile_empty. now destruct (dropWhile isSpace input). }
  unfold mentionsIncome. now rewrite Hnone.
Qed.

(** C9. Along every sequence of inputs from the initial context the
    conversation state is never [providing_advice]; one more input either
    leaves the state as it is or moves it to [gathering_info], the latter
    only when the handler recognised an income in that input and stored it;
    and an input with an income always leaves the state [gathering_info]. *)
Theorem conversationState_never_providing_advice (inputs : list string) :
  conversationState (session inputs) <> providing_advice /\
  forall input : string,
    let next := snd (handleSendMessage (session inputs) input) in
    (conversationState next = conversationState (session inputs) \/
     (conversationState next = gathering_info /\
      exists v : number,
        mentionsIncome input = Some v /\ income (userData next) = Some v)) /\
    (mentionsIncome input <> None -> conversationState next = gathering_info).
Proof.
  split.
  - apply fold_never_providing_advice. discriminate.
  - intros input. split; [apply handleSendMessage_state|].
    intros Hsome. rewrite handleSendMessage_context.
    destruct (isBlank input) eqn:Hblank.
    + now rewrite isBlank_mentionsIncome in Hsome.
    + pose proof (respond_state (session inputs) input) as H. cbv zeta in H.
      destruct (mentionsIncome input); [apply H | contradiction].
Qed.

(** Whatever the context and whatever else the message says, one of the
    words "hello", "hi" or "help" in it gets the topic menu. *)
Lemma greeting_words_first (chatContext : ChatContext) (userMessage : string) :
  let message := toLowerCase userMessage in
  includes message "hello" || includes message "hi" || includes message "help"
  = true ->
  fst (respond chatContext userMessage) = fixed TopicMenu.
Proof.
  intros message H. subst message.
  unfold respond, getBeginnerFriendlyResponse, bind, ret, setChatContext.
  rewrite H.
  repeat destruct_match; reflexivity.
Qed.

Ltac js_lazy :=
  lazy -[IZR Reqb Rleb Rltb Rplus Rmult Rminus Rdiv Ropp Rinv Rabs ln Rpower up
         Zfloor Zceil formatCurrency].

Ltac js_eval :=
  js_lazy;
  repeat (first [ rewrite Reqb_false by lra
                | rewrite Reqb_true by lra
                | rewrite Rltb_true by lra
                | rewrite Rltb_false by lra
                | rewrite Rleb_true by lra
                | rewrite Rleb_false by lra ];
          js_lazy).

(** ** formatCurrency *)

Lemma formatCurrency_integer (z : Z) :
  (0 <= z)%Z ->
  formatCurrency (Fin (IZR z)) = ("$" ++ grouped_digits z)%string.
Proof.
  intros Hz. unfold formatCurrency.
  assert (H0 : (0 <= IZR z)%R) by now apply IZR_le.
  rewrite Rltb_false by assumption.
  rewrite Rabs_pos_eq by assumption.
  rewrite (@Zfloor_unique (IZR z + / 2) z) by lra.
  reflexivity.
Qed.

Lemma formatCurrency_value (r : R) (z : Z) :
  r = IZR z -> (0 <= z)%Z ->
  formatCurrency (Fin r) = ("$" ++ grouped_digits z)%string.
Proof. intros ->. apply formatCurrency_integer. Qed.

Lemma formatCurrency_2500 : formatCurrency (Fin 2500) = "$2,500"%string.
Proof. now rewrite formatCurrency_integer. Qed.

(** ** The scenarios of the specification *)

(** The scenario does not run as the specification has it: the income
    stored is not 6000 and the reply is not a retirement projection. *)
Lemma retirement_scenario_as_stated_fails :
  ~ (let (reply, next) :=
       respond initialContext
         "I'm 30 years old and make $6000 per month, help me plan for retirement" in
     age (userData next) = Some (Fin 30) /\
     income (userData next) = Some (Fin 6000) /\
     template reply = RetirementProjection).
Proof.
  js_eval. intros (_ & _ & H). discriminate.
Qed.

(** C4.  What the code does with the message of the scenario, from the empty
    context: it stores the age 30, and as the income the first number of the
    text, which is the age once more and not 6000; the state becomes
    [gathering_info]; and the reply is the topic menu, not the projection
    the specification describes - the word "help" of the message is tested
    before any topic. *)
Theorem age_and_income_in_one_message :
  let (reply, next) :=
    respond initialContext
      "I'm 30 years old and make $6000 per month, help me plan for retirement" in
  age (userData next) = Some (Fin 30) /\
  income (userData next) = Some (Fin 30) /\
  conversationState next = gathering_info /\
  reply = fixed TopicMenu.
Proof.
  js_eval. repeat split.
Qed.

(** The same facts in an order the extractor reads as meant, and no greeting
    word: both are stored, but the retirement branch of that message reads
    the context of the render it closes over and asks for them; only the
    next message gets the projection. *)
Lemma same_message_facts_not_seen :
  let (reply, next) :=
    respond initialContext
      "I make $6000 per month, I'm 30 years old, plan my retirement" in
  reply = fixed AskAgeAndIncome /\
  income (userData next) = Some (Fin 6000) /\
  age (userData next) = Some (Fin 30) /\
  lastTopic next = "retirement"%string /\
  template (fst (respond next "plan my retirement")) = RetirementProjection.
Proof.
  js_eval. repeat split.
Qed.

(** The "Simple Budget" quick action of the page: its first use asks for the
    income it has just given, its second use answers. *)
Lemma quick_action_budget :
  let (reply, next) :=
    respond initialContext "I'm new to budgeting and make $4000 per month" in
  reply = fixed AskIncomeForBudget /\
  income (userData next) = Some (Fin 4000) /\
  template (fst (respond next "I'm new to budgeting and make $4000 per month"))
  = BudgetBreakdown.
Proof.
  js_eval. repeat split.
Qed.

(** The scenario does not run as the specification has it: the first reply
    does not ask for the income and the third is not the budget. *)
Lemma budget_scenario_as_stated_fails :
  ~ (let (reply1, ctx1) := respond initialContext "Help me create a budget" in
     let (reply2, ctx2) := respond ctx1 "I make $5000 per month" in
     let (reply3, ctx3) := respond ctx2 "help me budget" in
     asksForIncome (template reply1) = true /\
     holes reply1 = [] /\
     income (userData ctx2) = Some (Fin 5000) /\
     template reply3 = BudgetBreakdown /\
     map currencyText (holes reply3)
     = [Some "$5,000"; Some "$2,500"; Some "$1,500"; Some "$1,000"]%string).
Proof.
  js_eval. intros (H & _). discriminate.
Qed.

(** C5.  What the code does in the scenario.  "Help me create a budget" has
    the word "help" and gets the topic menu, not the question about the
    income; "I make $5000 per month" then stores the income 5000; after it
    "help me budget" gets the topic menu again and no figure at all, while
    the same request without the word, "create a budget", gets the budget
    the specification describes: needs $2,500, wants $1,500 and savings
    $1,000. *)
Theorem budget_scenario :
  let (reply1, ctx1) := respond initialContext "Help me create a budget" in
  let (reply2, ctx2) := respond ctx1 "I make $5000 per month" in
  let (reply3, ctx3) := respond ctx2 "create a budget" in
  let (reply3', _) := respond ctx2 "help me budget" in
  reply1 = fixed TopicMenu /\
  ctx1 = initialContext /\
  income (userData ctx2) = Some (Fin 5000) /\
  conversationState ctx2 = gathering_info /\
  template reply3 = BudgetBreakdown /\
  map currencyText (holes reply3)
  = [Some "$5,000"; Some "$2,500"; Some "$1,500"; Some "$1,000"]%string /\
  reply3' = fixed TopicMenu.
Proof.
  js_eval.
  rewrite (@formatCurrency_value _ 5000), (@formatCurrency_value _ 2500),
    (@formatCurrency_value _ 1500), (@formatCurrency_value _ 1000)
    by first [lra | lia].
  repeat split.
Qed.

(** The page offers these messages itself: the reply of last resort suggests
    "Help me budget", and the Emergency Fund button fills in "Help me start
    building an emergency fund".  Either gets the topic menu, whatever the
    context. *)
Lemma offered_prompts_get_menu (chatContext : ChatContext) :
  fst (respond chatContext "Help me budget") = fixed TopicMenu /\
  fst (respond chatContext "Help me start building an emergency fund")
  = fixed TopicMenu.
Proof. split; apply greeting_words_first; reflexivity. Qed.

(* ================================================================== *)
(** * Part III. Further properties of the code                         *)
(* ================================================================== *)

(** ** calculateEmergencyFund *)

(** X2. With an income of zero and savings below the target nothing
    can be put aside: [monthsToGoal] is [Infinity]. *)
Theorem calculateEmergencyFund_no_income
    (monthlyExpenses currentSavings targetMonths : R) :
  (currentSavings < monthlyExpenses * targetMonths)%R ->
  monthsToGoal
    (calculateEmergencyFund (Fin monthlyExpenses) (Fin currentSavings)
       (Fin 0) (Fin targetMonths)) = PInf.
Proof.
  intros Hgap. unfold calculateEmergencyFund.
  cbn [monthsToGoal Num.mul Num.sub Num.neg Num.add].
  set (gap := (monthlyExpenses * targetMonths + - currentSavings)%R).
  assert (Hpos : (0 < gap)%R) by (unfold gap; lra).
  unfold Math.max. cbn [Num.leb]. rewrite Rleb_true by lra.
  unfold Num.gtb. cbn [Num.ltb]. rewrite Rltb_true by lra.
  unfold Num.div. rewrite Reqb_true by lra. rewrite Reqb_false by lra.
  rewrite Rltb_true by lra. reflexivity.
Qed.

Lemma calculateEmergencyFund_no_income_witness :
  monthsToGoal
    (calculateEmergencyFund (Fin 3200) (Fin 1000) (Fin 0) (Fin 6)) = PInf.
Proof.
  apply (@calculateEmergencyFund_no_income 3200 1000 6). lra.
Defined.

(** ** calculateRetirementPlan at and around a zero horizon *)

Lemma Rpower_lt_1 (x y : R) : (1 < x)%R -> (y < 0)%R -> (Rpower x y < 1)%R.
Proof.
  intros Hx Hy. pose proof (@Rpower_lt x y 0 Hx Hy) as H.
  now rewrite Rpower_O in H by lra.
Qed.

(** X3. Retiring at the current age: zero years to go, the projected fund
    is the current savings (the contributions count for nothing, whatever
    the income and the rate), and the monthly income is 4% of the savings
    over twelve months. *)
Theorem calculateRetirementPlan_no_horizon
    (age currentSavings monthlyIncome contributionRate : R) :
  let plan :=
    calculateRetirementPlan (Fin age) (Fin age) (Fin currentSavings)
      (Fin monthlyIncome) (Fin contributionRate) in
  yearsToRetirement plan = Fin 0 /\
  projectedRetirementFund plan = Fin currentSavings /\
  monthlyIncomeAtRetirement plan = Fin (currentSavings * 0.04 / 12).
Proof.
  unfold calculateRetirementPlan.
  cbn [yearsToRetirement projectedRetirementFund monthlyIncomeAtRetirement
       Num.sub Num.neg Num.add Num.mul].
  rewrite !div_Fin by lra.
  unfold Math.pow. rewrite !Reqb_true by lra.
  cbn [Num.sub Num.neg Num.add Num.mul].
  rewrite !div_Fin by lra.
  cbn [Num.sub Num.neg Num.add Num.mul].
  rewrite !div_Fin by lra.
  repeat split; f_equal; field; lra.
Qed.

(** X4. A retirement age below the current age is accepted: the plan is
    finite, and with savings and contributions that are not negative the
    projected fund is at most the current savings. *)
Theorem calculateRetirementPlan_past_retirement
    (currentAge retirementAge currentSavings monthlyIncome contributionRate : R) :
  (retirementAge < currentAge)%R ->
  (0 <= currentSavings)%R -> (0 <= monthlyIncome * contributionRate)%R ->
  exists fund : R,
    projectedRetirementFund
      (calculateRetirementPlan (Fin currentAge) (Fin retirementAge)
         (Fin currentSavings) (Fin monthlyIncome) (Fin contributionRate))
    = Fin fund /\
    (fund <= currentSavings)%R.
Proof.
  intros Hpast Hcs Hmc.
  rewrite calculateRetirementPlan_fund by lra.
  eexists. split; [reflexivity|]. unfold fund_exact.
  set (y := (retirementAge - currentAge)%R).
  assert (Hy : (y < 0)%R) by (unfold y; lra).
  assert (H1 : (Rpower (1 + 0.07) y < 1)%R) by (apply Rpower_lt_1; lra).
  assert (H2 : (Rpower (1 + 0.07 / 12) (y * 12) < 1)%R)
    by (apply Rpower_lt_1; lra).
  assert (H3 : ((Rpower (1 + 0.07 / 12) (y * 12) - 1) / (0.07 / 12) <= 0)%R).
  { apply Rle_div_iff; lra. }
  nra.
Qed.

Lemma calculateRetirementPlan_past_retirement_witness :
  exists fund : R,
    projectedRetirementFund
      (calculateRetirementPlan (Fin 70) (Fin 65) (Fin 1000) (Fin 4000)
         (Fin 0.15))
    = Fin fund /\
    (fund <= 1000)%R.
Proof.
  apply (@calculateRetirementPlan_past_retirement 70 65 1000 4000 0.15); lra.
Defined.

Lemma Rpower_whole (x : R) (n : nat) : (0 < x)%R -> Rpower x (INR n) = (x ^ n)%R.
Proof. intros Hx. now apply Rpower_pow. Qed.

(** X5. Over a whole number of years, at least one, the projected fund is
    at least the money paid in: the current savings and twelve contributions
    a year. *)
Theorem calculateRetirementPlan_at_least_paid_in
    (currentAge currentSavings monthlyIncome contributionRate : R) (years : nat) :
  (0 < years)%nat ->
  (0 <= currentSavings)%R -> (0 <= monthlyIncome * contributionRate)%R ->
  exists fund : R,
    projectedRetirementFund
      (calculateRetirementPlan (Fin currentAge) (Fin (currentAge + INR years))
         (Fin currentSavings) (Fin monthlyIncome) (Fin contributionRate))
    = Fin fund /\
    (currentSavings + monthlyIncome * contributionRate * (12 * INR years)
     <= fund)%R.
Proof.
  intros Hyears Hcs Hmc.
  assert (Hy : (0 < INR years)%R) by now apply lt_0_INR.
  rewrite calculateRetirementPlan_fund by lra.
  eexists. split; [reflexivity|]. unfold fund_exact.
  replace (currentAge + INR years - currentAge)%R with (INR years) by lra.
  assert (H1 : (1 <= Rpower (1 + 0.07) (INR years))%R)
    by (left; apply Rpower_gt_1; lra).
  replace (INR years * 12)%R with (INR (years * 12)).
  2:{ rewrite mult_INR. simpl INR. lra. }
  rewrite (@Rpower_whole (1 + 0.07 / 12)) by lra.
  pose proof (@poly (years * 12) (0.07 / 12) ltac:(lra)) as Hpoly.
  rewrite mult_INR in Hpoly. replace (INR 12) with 12%R in Hpoly by (simpl; lra).
  assert (H3 : (12 * INR years
                <= ((1 + 0.07 / 12) ^ (years * 12) - 1) / (0.07 / 12))%R).
  { apply Rmult_le_reg_r with (0.07 / 12)%R; [lra|].
    replace (((1 + 0.07 / 12) ^ (years * 12) - 1) / (0.07 / 12) * (0.07 / 12))%R
      with ((1 + 0.07 / 12) ^ (years * 12) - 1)%R by (field; lra).
    lra. }
  apply Rplus_le_compat.
  - rewrite <- (Rmult_1_r currentSavings) at 1.
    now apply Rmult_le_compat_l.
  - now apply Rmult_le_compat_l.
Qed.

Lemma calculateRetirementPlan_at_least_paid_in_witness :
  exists fund : R,
    projectedRetirementFund
      (calculateRetirementPlan (Fin 30) (Fin (30 + INR 35)) (Fin 1000)
         (Fin 4000) (Fin 0.15))
    = Fin fund /\
    (1000 + 4000 * 0.15 * (12 * INR 35) <= fund)%R.
Proof.
  apply (@calculateRetirementPlan_at_least_paid_in 30 1000 4000 0.15 35);
    [lia | lra | lra].
Defined.


(** ** What extractNumberFromText can return *)

Lemma allChars_takeWhile (p : ascii -> bool) (s : string) :
  allChars p (takeWhile p s) = true.
Proof.
  induction s as [|c rest IH]; [reflexivity|].
  cbn. destruct (p c) eqn:Hp; [|reflexivity]. cbn. now rewrite Hp, IH.
Qed.

Lemma allChars_removeChars (p q : ascii -> bool) (s : string) :
  (forall c, p c = false -> q c = true) ->
  allChars q (removeChars p s) = true.
Proof.
  intros Hpq. induction s as [|c rest IH]; [reflexivity|].
  cbn. destruct (p c) eqn:Hp; [exact IH|]. cbn. now rewrite (Hpq c Hp), IH.
Qed.

Lemma matchNumberHere_token (s token : string) :
  matchNumberHere s = Some token -> allChars isTokenChar token = true.
Proof.
  assert (Hrun : forall t, allChars isTokenChar (takeWhile isDigitOrComma t) = true).
  { intros t. apply allChars_weaken with (p := isDigitOrComma);
      [|apply allChars_takeWhile].
    intros c Hc. unfold isTokenChar. now rewrite Hc. }
  unfold matchNumberHere. destruct s as [|c rest].
  - cbn. discriminate.
  - destruct (Ascii.eqb c "$") eqn:Hd.
    + apply Ascii.eqb_eq in Hd. subst c.
      pose proof (Hrun rest) as Hr.
      destruct (takeWhile isDigitOrComma rest); [discriminate|].
      intros H. injection H as <-.
      change (isTokenChar "$" && allChars isTokenChar (String a s) = true).
      now rewrite Hr.
    + pose proof (Hrun (String c rest)) as Hr.
      assert (Hsame :
        match c with
        | "$"%char =>
            match takeWhile isDigitOrComma rest with
            | EmptyString => None
            | String a s0 => Some (String "$" (String a s0))
            end
        | _ =>
            match takeWhile isDigitOrComma (String c rest) with
            | EmptyString => None
            | String a s0 => Some (String a s0)
            end
        end
        = match takeWhile isDigitOrComma (String c rest) with
          | EmptyString => None
          | String a s0 => Some (String a s0)
          end).
      { destruct c as [[] [] [] [] [] [] [] []]; try reflexivity. discriminate. }
      rewrite Hsame.
      destruct (takeWhile isDigitOrComma (String c rest)); [discriminate|].
      intros H. now injection H as <-.
Qed.

Lemma matchNumber_token (text token : string) :
  matchNumber text = Some token -> allChars isTokenChar token = true.
Proof.
  induction text as [|c rest IH]; cbn [matchNumber].
  - cbn. discriminate.
  - destruct (matchNumberHere (String c rest)) as [m|] eqn:Hhere.
    + intros H. injection H as <-. eapply matchNumberHere_token, Hhere.
    + exact IH.
Qed.

Lemma token_digits (c : ascii) :
  isDollarOrComma c = false -> isTokenChar c = true -> isDigit c = true.
Proof.
  unfold isDollarOrComma, isTokenChar, isDigitOrComma.
  destruct (isDigit c), (Ascii.eqb c "$"), (Ascii.eqb c ","); cbn; congruence.
Qed.

Lemma removeChars_token (token : string) :
  allChars isTokenChar token = true ->
  allChars isDigit (removeChars isDollarOrComma token) = true.
Proof.
  induction token as [|c rest IH]; [reflexivity|].
  cbn. intros H. apply andb_prop in H as [Hc Hrest].
  destruct (isDollarOrComma c) eqn:Hp; [now apply IH|].
  cbn. now rewrite (token_digits c Hp Hc), IH.
Qed.

(** On a string of digits [parseInt] is the decimal value, and nothing else
    of it comes into play: no white space, no sign, no [0x]. *)
Lemma digitsValue_nonneg (s : string) (acc : option Z) :
  allChars isDigit s = true ->
  (forall a, acc = Some a -> (0 <= a)%Z) ->
  match digitsValue 10 acc s with
  | Some n => (0 <= n)%Z
  | None => acc = None /\ s = EmptyString
  end.
Proof.
  revert acc. induction s as [|c rest IH]; intros acc Hs Hacc.
  - cbn. destruct acc as [a|]; [now apply Hacc | now split].
  - cbn in Hs. apply andb_prop in Hs as [Hc Hrest].
    cbn [digitsValue]. unfold digitValue, hexDigitValue. rewrite Hc.
    assert (Hd : (Z.of_nat (code c - 48) <? 10)%Z = true).
    { unfold isDigit in Hc. apply andb_prop in Hc as [H1 H2].
      apply Nat.leb_le in H1, H2. apply Z.ltb_lt. lia. }
    rewrite Hd.
    specialize (IH (Some (match acc with
                          | Some a => a * 10 + Z.of_nat (code c - 48)
                          | None => Z.of_nat (code c - 48)
                          end)%Z) Hrest).
    destruct (digitsValue 10 _ rest) as [n|].
    + apply IH. intros a Ha. injection Ha as <-.
      destruct acc as [a0|]; [specialize (Hacc a0 eq_refl)|]; lia.
    + destruct IH as [Habs _]; [|discriminate].
      intros a Ha. injection Ha as <-.
      destruct acc as [a0|]; [specialize (Hacc a0 eq_refl)|]; lia.
Qed.

Lemma option_map_mul_1 (o : option Z) : option_map (Z.mul 1) o = o.
Proof. destruct o as [z|]; [|reflexivity]. cbn [option_map]. f_equal. lia. Qed.

Lemma parseIntZ_digits (s : string) :
  allChars isDigit s = true -> parseIntZ s = digitsValue 10 None s.
Proof.
  intros Hs. rewrite <- (option_map_mul_1 (digitsValue 10 None s)).
  destruct s as [|c rest]; [reflexivity|].
  cbn in Hs. apply andb_prop in Hs as [Hc Hrest].
  destruct rest as [|c' rest'].
  - destruct c as [[] [] [] [] [] [] [] []]; cbn in Hc |- *;
      try discriminate; reflexivity.
  - cbn in Hrest. apply andb_prop in Hrest as [Hc' _].
    destruct c as [[] [] [] [] [] [] [] []]; cbn in Hc; try discriminate;
      try reflexivity.
    destruct c' as [[] [] [] [] [] [] [] []]; cbn in Hc'; try discriminate;
      reflexivity.
Qed.

Lemma matchNumber_value (text token : string) :
  matchNumber text = Some token ->
  parseInt (removeChars isDollarOrComma token) = NaN \/
  exists n : Z,
    (0 <= n)%Z /\ parseInt (removeChars isDollarOrComma token) = Fin (IZR n).
Proof.
  intros Hm.
  pose proof (removeChars_token _ (matchNumber_token _ Hm)) as Hdigits.
  unfold parseInt. rewrite (parseIntZ_digits _ Hdigits).
  pose proof (@digitsValue_nonneg _ None Hdigits) as Hval.
  destruct (digitsValue 10 None _) as [n|].
  - right. exists n. split; [|reflexivity]. apply Hval. discriminate.
  - now left.
Qed.

(** A number of the text that passes a truthiness test is a positive whole
    number. *)
Lemma truthy_extracted_positive (text : string) (v : number) :
  truthy_value (extractNumberFromText text) = Some v ->
  exists n : Z,
    (0 < n)%Z /\ v = Fin (IZR n) /\ extractNumberFromText text = Some v.
Proof.
  unfold truthy_value, extractNumberFromText.
  destruct (matchNumber text) as [token|] eqn:Hm; [|discriminate].
  destruct (Num.truthy _) eqn:Ht; [|discriminate].
  intros H. injection H as <-.
  destruct (matchNumber_value _ Hm) as [Hnan | (n & Hn & Hv)].
  - rewrite Hnan in Ht. discriminate.
  - rewrite Hv in Ht |- *. exists n. repeat split.
    cbn in Ht. apply negb_true_iff in Ht.
    destruct (Z.eq_dec n 0) as [-> | Hne]; [|lia].
    now rewrite Reqb_true in Ht.
Qed.

Lemma matchNumberHere_head (c : ascii) (rest : string) :
  isDigitOrComma c = true ->
  matchNumberHere (String c rest)
  = Some (String c (takeWhile isDigitOrComma rest)).
Proof.
  intros Hc. unfold matchNumberHere.
  destruct c as [[] [] [] [] [] [] [] []]; cbn in Hc; try discriminate;
    reflexivity.
Qed.

Lemma matchNumberHere_dollar (rest : string) :
  matchNumberHere (String "$" rest)
  = match rest with
    | String c rest' =>
        if isDigitOrComma c
        then Some (String "$" (String c (takeWhile isDigitOrComma rest')))
        else None
    | EmptyString => None
    end.
Proof.
  unfold matchNumberHere. destruct rest as [|c rest']; [reflexivity|].
  cbn [takeWhile]. now destruct (isDigitOrComma c).
Qed.

Lemma matchNumberHere_other (c : ascii) (rest : string) :
  isDigitOrComma c = false -> c <> "$"%char ->
  matchNumberHere (String c rest) = None.
Proof.
  intros Hc Hd. unfold matchNumberHere.
  assert (Htw : takeWhile isDigitOrComma (String c rest) = EmptyString)
    by (cbn; now rewrite Hc).
  rewrite Htw.
  destruct c as [[] [] [] [] [] [] [] []]; try reflexivity.
  now contradiction Hd.
Qed.

(** X9. Words before the number do not matter, as long as they have neither a
    digit nor a comma: the text after them is read as if it stood alone. *)
Theorem extractNumberFromText_leading_words (words text : string) :
  allChars (fun c => negb (isDigitOrComma c)) words = true ->
  extractNumberFromText (words ++ text) = extractNumberFromText text.
Proof.
  induction words as [|c rest IH]; [reflexivity|].
  cbn [allChars]. intros H. apply andb_prop in H as [Hc Hrest].
  apply negb_true_iff in Hc. specialize (IH Hrest).
  cbn [append]. unfold extractNumberFromText in *. cbn [matchNumber].
  destruct (Ascii.eqb c "$") eqn:Hd.
  - apply Ascii.eqb_eq in Hd. subst c. rewrite matchNumberHere_dollar.
    destruct (rest ++ text)%string as [|d tail] eqn:Htail.
    + exact IH.
    + destruct (isDigitOrComma d) eqn:Hdc; [|exact IH].
      rewrite <- IH. cbn [matchNumber].
      rewrite (@matchNumberHere_head d tail Hdc).
      cbn [removeChars]. reflexivity.
  - apply Ascii.eqb_neq in Hd. rewrite (@matchNumberHere_other c (rest ++ text) Hc Hd).
    exact IH.
Qed.

Lemma extractNumberFromText_leading_words_witness :
  extractNumberFromText ("my debt is " ++ "$5,000 now")
  = extractNumberFromText "$5,000 now".
Proof.
  apply (@extractNumberFromText_leading_words "my debt is " "$5,000 now").
  reflexivity.
Defined.

(** ** Lengths *)

Lemma length_takeWhile (p : ascii -> bool) (s : string) :
  (String.length (takeWhile p s) <= String.length s)%nat.
Proof.
  induction s as [|c rest IH]; [reflexivity|].
  cbn. destruct (p c); cbn; lia.
Qed.

Lemma length_dropWhile (p : ascii -> bool) (s : string) :
  (String.length (dropWhile p s) <= String.length s)%nat.
Proof.
  induction s as [|c rest IH]; [reflexivity|].
  cbn. destruct (p c); cbn; lia.
Qed.

Lemma length_removeChars (p : ascii -> bool) (s : string) :
  (String.length (removeChars p s) <= String.length s)%nat.
Proof.
  induction s as [|c rest IH]; [reflexivity|].
  cbn. destruct (p c); cbn; lia.
Qed.

Lemma length_matchNumberHere (s token : string) :
  matchNumberHere s = Some token ->
  (String.length token <= String.length s)%nat.
Proof.
  destruct s as [|c rest]; [discriminate|].
  destruct (Ascii.eqb c "$") eqn:Hd.
  - apply Ascii.eqb_eq in Hd. subst c. rewrite matchNumberHere_dollar.
    destruct rest as [|d rest']; [discriminate|].
    destruct (isDigitOrComma d); [|discriminate].
    intros H. injection H as <-.
    pose proof (length_takeWhile isDigitOrComma rest'). cbn. lia.
  - apply Ascii.eqb_neq in Hd.
    destruct (isDigitOrComma c) eqn:Hc.
    + rewrite (@matchNumberHere_head c rest Hc). intros H. injection H as <-.
      pose proof (length_takeWhile isDigitOrComma rest). cbn. lia.
    + now rewrite (@matchNumberHere_other c rest Hc Hd).
Qed.

Lemma length_matchNumber (text token : string) :
  matchNumber text = Some token ->
  (String.length token <= String.length text)%nat.
Proof.
  induction text as [|c rest IH]; cbn [matchNumber].
  - cbn. discriminate.
  - destruct (matchNumberHere (String c rest)) as [m|] eqn:Hhere.
    + intros H. injection H as <-. now apply length_matchNumberHere.
    + intros H. specialize (IH H). cbn. lia.
Qed.

Lemma length_matchLiteral (literal s rest : string) :
  matchLiteral literal s = Some rest ->
  (String.length rest <= String.length s)%nat.
Proof.
  revert s. induction literal as [|p literal IH]; intros s; cbn.
  - intros H. injection H as <-. lia.
  - destruct s as [|c s']; [discriminate|].
    destruct (Ascii.eqb (toLower c) p); [|discriminate].
    intros H. specialize (IH _ H). cbn. lia.
Qed.

Lemma length_matchDigits (s group rest : string) :
  matchDigits s = Some (group, rest) ->
  (String.length group <= String.length s)%nat.
Proof.
  unfold matchDigits. pose proof (length_takeWhile isDigit s) as Hlen.
  destruct (takeWhile isDigit s) as [|c run]; [discriminate|].
  intros H. now injection H as <- _.
Qed.

Lemma length_matchWordNumber (word s group : string) :
  matchWordNumber word s = Some group ->
  (String.length group <= String.length s)%nat.
Proof.
  unfold matchWordNumber.
  destruct (matchLiteral word s) as [rest|] eqn:Hl; [|discriminate].
  destruct (matchDigits (dropWhile isSpace rest)) as [[g r]|] eqn:Hd;
    [|discriminate].
  cbn. intros H. injection H as <-.
  pose proof (length_matchDigits _ Hd).
  pose proof (length_dropWhile isSpace rest).
  pose proof (length_matchLiteral _ _ Hl). lia.
Qed.

Lemma length_matchAgeHere (s group : string) :
  matchAgeHere s = Some group ->
  (String.length group <= String.length s)%nat.
Proof.
  unfold matchAgeHere.
  destruct (matchYearsOld s) as [g1|] eqn:H1.
  - intros H. injection H as <-. unfold matchYearsOld in H1.
    destruct (matchDigits s) as [[g r]|] eqn:Hd; [|discriminate].
    destruct (matchLiteral "year" (dropWhile isSpace r)); [|discriminate].
    destruct (matchLiteral "old" _); [|discriminate].
    injection H1 as <-. eapply length_matchDigits, Hd.
  - destruct (matchWordNumber "age" s) as [g2|] eqn:H2.
    + intros H. injection H as <-. eapply length_matchWordNumber, H2.
    + apply length_matchWordNumber.
Qed.

Lemma length_matchAge (text group : string) :
  matchAge text = Some group ->
  (String.length group <= String.length text)%nat.
Proof.
  induction text as [|c rest IH]; cbn [matchAge].
  - destruct (matchAgeHere EmptyString) eqn:H; [|discriminate].
    intros E. injection E as <-. eapply length_matchAgeHere, H.
  - destruct (matchAgeHere (String c rest)) eqn:H.
    + intros E. injection E as <-. eapply length_matchAgeHere, H.
    + intros E. specialize (IH E). cbn. lia.
Qed.

(** ** The size of what parseInt reads *)

Lemma digitsValue_below (s : string) (acc : option Z) (k : nat) :
  allChars isDigit s = true ->
  (forall a, acc = Some a -> (0 <= a < 10 ^ Z.of_nat k)%Z) ->
  forall n : Z,
    digitsValue 10 acc s = Some n ->
    (0 <= n < 10 ^ Z.of_nat (k + String.length s))%Z.
Proof.
  revert acc k. induction s as [|c rest IH]; intros acc k Hs Hacc n.
  - cbn. rewrite Nat.add_0_r. intros ->. now apply Hacc.
  - cbn in Hs. apply andb_prop in Hs as [Hc Hrest].
    cbn [digitsValue String.length]. unfold digitValue, hexDigitValue. rewrite Hc.
    assert (Hd : (0 <= Z.of_nat (code c - 48) < 10)%Z).
    { unfold isDigit in Hc. apply andb_prop in Hc as [H1 H2].
      apply Nat.leb_le in H1, H2. lia. }
    destruct (Z.ltb_spec (Z.of_nat (code c - 48)) 10) as [_ | Hbad]; [|lia].
    replace (k + S (String.length rest))%nat
      with (S k + String.length rest)%nat by lia.
    apply IH; [exact Hrest|].
    intros a Ha. injection Ha as <-.
    rewrite Nat2Z.inj_succ, Z.pow_succ_r by lia.
    destruct acc as [a0|].
    + specialize (Hacc a0 eq_refl). nia.
    + assert (0 < 10 ^ Z.of_nat k)%Z by (apply Z.pow_pos_nonneg; lia). nia.
Qed.

Lemma parseInt_below (group : string) :
  allChars isDigit group = true ->
  parseInt group = NaN \/
  exists n : Z,
    (0 <= n < 10 ^ Z.of_nat (String.length group))%Z /\
    parseInt group = Fin (IZR n).
Proof.
  intros Hd. unfold parseInt. rewrite (parseIntZ_digits _ Hd).
  pose proof (@digitsValue_below group None 0 Hd) as Hval.
  destruct (digitsValue 10 None group) as [n|]; [|now left].
  right. exists n. split; [|reflexivity]. apply Hval; [discriminate | reflexivity].
Qed.

Lemma binary64_range (k : nat) (n : Z) :
  (k <= 308)%nat -> (n < 10 ^ Z.of_nat k)%Z -> (n < 2 ^ 1024)%Z.
Proof.
  intros Hk Hn.
  assert (H1 : (10 ^ Z.of_nat k <= 10 ^ 308)%Z)
    by (apply Z.pow_le_mono_r; lia).
  assert (H2 : (10 ^ 308 < 2 ^ 1024)%Z) by reflexivity.
  lia.
Qed.

Lemma matchNumber_below (text token : string) :
  matchNumber text = Some token ->
  parseInt (removeChars isDollarOrComma token) = NaN \/
  exists n : Z,
    (0 <= n < 10 ^ Z.of_nat (String.length text))%Z /\
    parseInt (removeChars isDollarOrComma token) = Fin (IZR n).
Proof.
  intros Hm.
  pose proof (removeChars_token _ (matchNumber_token _ Hm)) as Hdigits.
  destruct (@parseInt_below _ Hdigits) as [Hnan | (n & Hn & Hv)]; [now left|].
  right. exists n. split; [|exact Hv].
  pose proof (length_removeChars isDollarOrComma token).
  pose proof (length_matchNumber _ Hm).
  assert (10 ^ Z.of_nat (String.length (removeChars isDollarOrComma token))
          <= 10 ^ Z.of_nat (String.length text))%Z
    by (apply Z.pow_le_mono_r; lia).
  lia.
Qed.

(** A number of the text that passes a truthiness test is a positive whole
    number with no more digits than the text has characters. *)
Lemma truthy_extracted_below (text : string) (v : number) :
  truthy_value (extractNumberFromText text) = Some v ->
  exists n : Z,
    (0 < n < 10 ^ Z.of_nat (String.length text))%Z /\
    v = Fin (IZR n) /\ extractNumberFromText text = Some v.
Proof.
  unfold truthy_value, extractNumberFromText.
  destruct (matchNumber text) as [token|] eqn:Hm; [|discriminate].
  destruct (Num.truthy _) eqn:Ht; [|discriminate].
  intros H. injection H as <-.
  destruct (matchNumber_below _ Hm) as [Hnan | (n & Hn & Hv)].
  - rewrite Hnan in Ht. discriminate.
  - rewrite Hv in Ht |- *. exists n. repeat split; try lia.
    cbn in Ht. apply negb_true_iff in Ht.
    destruct (Z.eq_dec n 0) as [-> | Hne]; [|lia].
    now rewrite Reqb_true in Ht.
Qed.

(** X8. For a text of at most 308 characters, when [extractNumberFromText]
    returns a number it is [NaN] or a whole number that is not negative and
    lies within the finite range of binary64: never a fraction, never below
    zero, never [Infinity]. *)
Theorem extractNumberFromText_whole_or_NaN (text : string) (v : number) :
  (String.length text <= 308)%nat ->
  extractNumberFromText text = Some v ->
  v = NaN \/ exists n : Z, (0 <= n < 2 ^ 1024)%Z /\ v = Fin (IZR n).
Proof.
  intros Hlen. unfold extractNumberFromText.
  destruct (matchNumber text) as [token|] eqn:Hm; [|discriminate].
  intros H. injection H as <-.
  destruct (matchNumber_below _ Hm) as [Hnan | (n & Hn & Hv)]; [now left|].
  right. exists n. split; [|exact Hv].
  split; [lia | now apply (@binary64_range (String.length text))].
Qed.

Lemma extractNumberFromText_whole_or_NaN_witness :
  Fin 5000 = NaN \/ exists n : Z, (0 <= n < 2 ^ 1024)%Z /\ Fin 5000 = Fin (IZR n).
Proof.
  apply (@extractNumberFromText_whole_or_NaN "I make $5,000 per month").
  - cbn. lia.
  - reflexivity.
Defined.

(** ** Reading back what formatCurrency writes *)

Ltac digit_step :=
  cbn [NilEmpty.string_of_uint digitsValue Pos.of_uint_acc Pos.of_uint];
  repeat match goal with
  | |- context [digitValue 10 ?c] =>
      let v := eval vm_compute in (digitValue 10 c) in
      change (digitValue 10 c) with v
  end;
  cbv iota beta.

Lemma digitsValue_acc (d : Decimal.uint) (a : Z) :
  (0 < a)%Z ->
  digitsValue 10 (Some a) (NilEmpty.string_of_uint d)
  = Some (Z.pos (Pos.of_uint_acc d (Z.to_pos a))).
Proof.
  revert a. induction d; intros a Ha; digit_step;
    [ f_equal; lia | .. ];
    (rewrite IHd by lia; do 3 f_equal; lia).
Qed.

Lemma digitsValue_zero (d : Decimal.uint) :
  digitsValue 10 (Some 0%Z) (NilEmpty.string_of_uint d)
  = Some (Z.of_N (Pos.of_uint d)).
Proof.
  induction d; digit_step; try reflexivity; try exact IHd;
    (rewrite digitsValue_acc by lia; reflexivity).
Qed.

Lemma digitsValue_uint (d : Decimal.uint) :
  d <> Decimal.Nil ->
  digitsValue 10 None (NilEmpty.string_of_uint d)
  = Some (Z.of_N (N.of_uint d)).
Proof.
  unfold N.of_uint. destruct d; intros Hd; digit_step; try contradiction;
    try apply digitsValue_zero;
    (rewrite digitsValue_acc by lia; reflexivity).
Qed.

Lemma to_uint_not_Nil (n : N) : N.to_uint n <> Decimal.Nil.
Proof.
  destruct n as [|p]; [discriminate|]. intros H.
  pose proof (DecimalPos.Unsigned.of_to p) as Hp.
  cbn in H. rewrite H in Hp. discriminate.
Qed.

Lemma string_of_uint_digits (d : Decimal.uint) :
  allChars isDigit (NilEmpty.string_of_uint d) = true.
Proof. induction d; cbn; auto. Qed.

(** The digits of a whole number, read back. *)
Lemma parseInt_digits_of (n : Z) :
  (0 <= n)%Z ->
  parseInt (NilEmpty.string_of_uint (N.to_uint (Z.to_N n))) = Fin (IZR n).
Proof.
  intros Hn. unfold parseInt.
  rewrite parseIntZ_digits by apply string_of_uint_digits.
  rewrite digitsValue_uint by apply to_uint_not_Nil.
  rewrite DecimalN.Unsigned.of_to. unfold Num.of_Z. do 2 f_equal. lia.
Qed.

Lemma removeChars_list (p : ascii -> bool) (l : list ascii) :
  removeChars p (string_of_list_ascii l)
  = string_of_list_ascii (filter (fun c => negb (p c)) l).
Proof.
  induction l as [|c l IH]; [reflexivity|].
  cbn. destruct (p c); cbn; now rewrite IH.
Qed.

Lemma takeWhile_list (p : ascii -> bool) (l : list ascii) :
  forallb p l = true ->
  takeWhile p (string_of_list_ascii l) = string_of_list_ascii l.
Proof.
  induction l as [|c l IH]; [reflexivity|].
  cbn. intros H. apply andb_prop in H as [Hc Hl]. now rewrite Hc, IH.
Qed.

Lemma allChars_list (p : ascii -> bool) (s : string) :
  allChars p s = forallb p (list_ascii_of_string s).
Proof. induction s as [|c s IH]; [reflexivity|]. cbn. now rewrite IH. Qed.

(** Grouping only inserts commas. *)
Lemma group_thousands_step (a b c d : ascii) (rest : list ascii) :
  group_thousands (a :: b :: c :: d :: rest)
  = a :: b :: c :: ","%char :: group_thousands (d :: rest).
Proof. reflexivity. Qed.

Lemma group_thousands_short (l : list ascii) :
  (List.length l <= 3)%nat -> group_thousands l = l.
Proof.
  destruct l as [|a [|b [|c [|d rest]]]]; try reflexivity.
  cbn. lia.
Qed.

Lemma forallb_digit_or_comma (l : list ascii) :
  forallb isDigit l = true -> forallb isDigitOrComma l = true.
Proof.
  intros H. rewrite forallb_forall in *. intros x Hx.
  unfold isDigitOrComma. now rewrite (H x Hx).
Qed.

Lemma group_thousands_spec (keep : ascii -> bool) (n : nat) :
  keep ","%char = false ->
  forall l : list ascii,
    (List.length l <= n)%nat ->
    filter keep (group_thousands l) = filter keep l /\
    (forallb isDigit l = true ->
     forallb isDigitOrComma (group_thousands l) = true) /\
    (l <> [] -> group_thousands l <> []).
Proof.
  intros Hcomma. induction n as [|n IH]; intros l Hlen.
  - rewrite group_thousands_short by lia.
    split; [reflexivity|]. split; [apply forallb_digit_or_comma | auto].
  - destruct (Nat.le_gt_cases (List.length l) 3) as [Hshort | Hlong].
    + rewrite group_thousands_short by lia.
      split; [reflexivity|]. split; [apply forallb_digit_or_comma | auto].
    + destruct l as [|a [|b [|c [|d rest]]]]; cbn in Hlong; try lia.
      rewrite group_thousands_step.
      destruct (IH (d :: rest)) as (Hf & Hd & _); [cbn in Hlen |- *; lia|].
      split; [|split; [|discriminate]].
      * change (a :: b :: c :: ","%char :: group_thousands (d :: rest))
          with ([a; b; c; ","%char] ++ group_thousands (d :: rest)).
        change (a :: b :: c :: d :: rest) with ([a; b; c] ++ d :: rest).
        rewrite !filter_app, Hf. f_equal.
        cbn [filter]. rewrite Hcomma.
        now destruct (keep a), (keep b), (keep c).
      * intros H.
        change (a :: b :: c :: d :: rest) with ([a; b; c] ++ d :: rest) in H.
        rewrite forallb_app in H. apply andb_prop in H as [Habc H].
        change (a :: b :: c :: ","%char :: group_thousands (d :: rest))
          with ([a; b; c] ++ [","%char] ++ group_thousands (d :: rest)).
        rewrite !forallb_app, (forallb_digit_or_comma _ Habc), (Hd H).
        reflexivity.
Qed.

Lemma grouped_digits_shape (n : Z) :
  let digits := NilEmpty.string_of_uint (N.to_uint (Z.to_N n)) in
  removeChars isDollarOrComma (grouped_digits n) = digits /\
  takeWhile isDigitOrComma (grouped_digits n) = grouped_digits n /\
  grouped_digits n <> EmptyString.
Proof.
  cbv zeta. unfold grouped_digits.
  set (digits := NilEmpty.string_of_uint (N.to_uint (Z.to_N n))).
  set (l := rev (list_ascii_of_string digits)).
  assert (Hdig : forallb isDigit (list_ascii_of_string digits) = true).
  { rewrite <- allChars_list. apply string_of_uint_digits. }
  assert (Hl : forallb isDigit l = true).
  { unfold l. rewrite forallb_forall in *. intros x Hx.
    apply Hdig. now apply in_rev. }
  assert (Hne : l <> []).
  { unfold l. intros H. apply (f_equal (@rev ascii)) in H.
    rewrite rev_involutive in H. cbn in H.
    assert (Hd : digits = EmptyString).
    { rewrite <- (string_of_list_ascii_of_string digits). now rewrite H. }
    unfold digits in Hd.
    destruct (N.to_uint (Z.to_N n)) eqn:Hu; try discriminate.
    now apply to_uint_not_Nil in Hu. }
  destruct (@group_thousands_spec (fun c => negb (isDollarOrComma c))
              (List.length l) eq_refl l (le_n _)) as (Hf & Hd & Hn).
  split; [|split].
  - rewrite removeChars_list, filter_rev, Hf, <- filter_rev.
    unfold l. rewrite rev_involutive.
    rewrite forallb_filter_id.
    + apply string_of_list_ascii_of_string.
    + rewrite forallb_forall in *. intros x Hx. specialize (Hdig x Hx).
      destruct x as [[] [] [] [] [] [] [] []]; cbn in Hdig |- *;
        (reflexivity || discriminate).
  - apply takeWhile_list. rewrite forallb_forall. intros x Hx.
    apply in_rev in Hx. specialize (Hd Hl). rewrite forallb_forall in Hd.
    now apply Hd.
  - intros H. apply Hn; [exact Hne|].
    apply (f_equal list_ascii_of_string) in H.
    rewrite list_ascii_of_string_of_list_ascii in H. cbn in H.
    apply (f_equal (@rev ascii)) in H. now rewrite rev_involutive in H.
Qed.

(** X10. Whatever finite amount is formatted, reading the text back gives the
    amount rounded to a whole number, without its sign. *)
Theorem extractNumberFromText_formatCurrency (amount : R) :
  extractNumberFromText (formatCurrency (Fin amount))
  = Some (Fin (IZR (Zfloor (Rabs amount + / 2)))).
Proof.
  unfold formatCurrency.
  set (n := Zfloor (Rabs amount + / 2)).
  assert (Hn : (0 <= n)%Z).
  { unfold n. destruct (Zfloor_bounds (Rabs amount + / 2)) as [_ Hup].
    pose proof (Rabs_pos amount).
    assert (H0 : (IZR (-1) < IZR (Zfloor (Rabs amount + / 2)))%R) by lra.
    apply lt_IZR in H0. lia. }
  destruct (grouped_digits_shape n) as (Hrm & Htw & Hne).
  assert (Hdollar :
    extractNumberFromText ("$" ++ grouped_digits n) = Some (Fin (IZR n))).
  { unfold extractNumberFromText. cbn [append matchNumber].
    unfold matchNumberHere. rewrite Htw.
    destruct (grouped_digits n) as [|c rest] eqn:Hg; [contradiction|].
    change (removeChars isDollarOrComma (String "$" (String c rest)))
      with (removeChars isDollarOrComma (String c rest)).
    rewrite Hrm. now rewrite parseInt_digits_of. }
  destruct (Rltb amount 0).
  - change ("-" ++ "$" ++ grouped_digits n)%string
      with ("-" ++ ("$" ++ grouped_digits n))%string.
    unfold extractNumberFromText in *. cbn [append matchNumber].
    rewrite matchNumberHere_other by (reflexivity || discriminate).
    exact Hdollar.
  - exact Hdollar.
Qed.

(** ** What a session can hold *)

Lemma takeWhile_nonempty_digits (s run : string) :
  takeWhile isDigit s = run -> allChars isDigit run = true.
Proof. intros <-. apply allChars_takeWhile. Qed.

Lemma matchDigits_group (s group rest : string) :
  matchDigits s = Some (group, rest) ->
  allChars isDigit group = true /\ group <> EmptyString.
Proof.
  unfold matchDigits. pose proof (allChars_takeWhile isDigit s) as Hall.
  destruct (takeWhile isDigit s) as [|c run]; [discriminate|].
  intros H. injection H as <- _. split; [exact Hall | discriminate].
Qed.

Lemma matchAgeHere_group (s group : string) :
  matchAgeHere s = Some group ->
  allChars isDigit group = true /\ group <> EmptyString.
Proof.
  assert (Hword : forall word,
    matchWordNumber word s = Some group ->
    allChars isDigit group = true /\ group <> EmptyString).
  { intros word. unfold matchWordNumber.
    destruct (matchLiteral word s) as [rest|]; [|discriminate].
    destruct (matchDigits (dropWhile isSpace rest)) as [[g r]|] eqn:Hd;
      [|discriminate].
    cbn. intros H. injection H as <-. eapply matchDigits_group, Hd. }
  unfold matchAgeHere.
  destruct (matchYearsOld s) as [g1|] eqn:H1.
  - intros H. injection H as <-. unfold matchYearsOld in H1.
    destruct (matchDigits s) as [[g r]|] eqn:Hd; [|discriminate].
    destruct (matchLiteral "year" (dropWhile isSpace r)); [|discriminate].
    destruct (matchLiteral "old" _); [|discriminate].
    injection H1 as <-. eapply matchDigits_group, Hd.
  - destruct (matchWordNumber "age" s) as [g2|] eqn:H2.
    + intros H. injection H as <-. now apply (Hword "age"%string).
    + apply Hword.
Qed.

Lemma matchAge_group (text group : string) :
  matchAge text = Some group ->
  allChars isDigit group = true /\ group <> EmptyString.
Proof.
  induction text as [|c rest IH]; cbn [matchAge].
  - destruct (matchAgeHere EmptyString) eqn:H; [|discriminate].
    intros E. injection E as <-. eapply matchAgeHere_group, H.
  - destruct (matchAgeHere (String c rest)) eqn:H.
    + intros E. injection E as <-. eapply matchAgeHere_group, H.
    + exact IH.
Qed.

Lemma parseInt_group (group : string) :
  allChars isDigit group = true -> group <> EmptyString ->
  exists n : Z, (0 <= n)%Z /\ parseInt group = Fin (IZR n).
Proof.
  intros Hd Hne. unfold parseInt. rewrite (parseIntZ_digits _ Hd).
  pose proof (@digitsValue_nonneg _ None Hd) as Hval.
  destruct (digitsValue 10 None group) as [n|].
  - exists n. split; [|reflexivity]. apply Hval. discriminate.
  - destruct Hval as [_ Habs]; [discriminate|]. contradiction.
Qed.

Lemma mentionsIncome_positive (userMessage : string) (v : number) :
  mentionsIncome userMessage = Some v ->
  exists n : Z, (0 < n)%Z /\ v = Fin (IZR n).
Proof.
  unfold mentionsIncome.
  destruct (truthy_value (extractNumberFromText userMessage)) as [w|] eqn:Hx;
    [|discriminate].
  destruct (_ || _); [|discriminate]. intros H. injection H as <-.
  destruct (truthy_extracted_positive _ Hx) as (n & Hn & -> & _).
  now exists n.
Qed.

(** The queue of one message, in full. *)
Lemma queued_updaters_exact (chatContext : ChatContext) (userMessage : string) :
  exists topic : list Updater,
    snd (getBeginnerFriendlyResponse chatContext userMessage)
    = match mentionsIncome userMessage with
      | Some v => [storeIncome v]
      | None => []
      end
      ++ match matchAge userMessage with
         | Some group => [storeAge (parseInt group)]
         | None => []
         end
      ++ topic
    /\ (topic = [] \/ topic = [storeLastTopic "budget"]
        \/ topic = [storeLastTopic "retirement"]).
Proof.
  unfold getBeginnerFriendlyResponse, mentionsIncome, bind, ret, setChatContext.
  set (message := toLowerCase userMessage).
  set (words := includes message "income" || includes message "salary"
                || includes message "make" || includes message "earn").
  destruct (truthy_value (extractNumberFromText userMessage)) as [v|] eqn:Hv;
    [destruct words|];
    (destruct (matchAge userMessage) as [g|];
     repeat destruct_match; cbn [snd app];
     eexists; (split; [reflexivity|]); auto).
Qed.

Lemma respond_sessionProfile (ctx : ChatContext) (userMessage : string) :
  sessionProfile ctx -> sessionProfile (snd (respond ctx userMessage)).
Proof.
  intros (Hinc & Hage & Hdead & Htopic).
  rewrite respond_context.
  destruct (queued_updaters_exact ctx userMessage) as (topic & -> & Ht).
  pose proof (@mentionsIncome_positive userMessage) as Hmi.
  pose proof (@matchAge_group userMessage) as Hag.
  destruct (mentionsIncome userMessage) as [v|];
    destruct (matchAge userMessage) as [g|];
    destruct Ht as [-> | [-> | ->]];
    cbn [app commit fold_left storeIncome storeAge storeLastTopic
         userData lastTopic conversationState with_income with_age
         income age expenses retirementAge currentSavings debt
         riskTolerance goals];
    (split; [|split; [|split]]);
    try exact Hinc; try exact Hage; try exact Hdead; try exact Htopic;
    auto;
    try (intros w Hw; injection Hw as <-; now apply Hmi);
    try (intros w Hw; injection Hw as <-;
         destruct (Hag g eq_refl) as [Hd Hne]; now apply parseInt_group).
Qed.

Lemma handleSendMessage_sessionProfile (ctx : ChatContext) (input : string) :
  sessionProfile ctx -> sessionProfile (snd (handleSendMessage ctx input)).
Proof.
  intros H. rewrite handleSendMessage_context.
  destruct (isBlank input); [exact H | now apply respond_sessionProfile].
Qed.

Lemma session_sessionProfile (inputs : list string) :
  sessionProfile (session inputs).
Proof.
  unfold session.
  assert (Hinit : sessionProfile initialContext).
  { repeat split; try discriminate. now left. }
  revert Hinit. generalize initialContext.
  induction inputs as [|input inputs IH]; intros start Hstart; [exact Hstart|].
  cbn [fold_left]. apply IH. now apply handleSendMessage_sessionProfile.
Qed.

Lemma mentionsIncome_below (userMessage : string) (v : number) :
  (String.length userMessage <= 308)%nat ->
  mentionsIncome userMessage = Some v ->
  exists n : Z, (0 < n < 2 ^ 1024)%Z /\ v = Fin (IZR n).
Proof.
  intros Hlen. unfold mentionsIncome.
  destruct (truthy_value (extractNumberFromText userMessage)) as [w|] eqn:Hx;
    [|discriminate].
  destruct (_ || _); [|discriminate]. intros H. injection H as <-.
  destruct (truthy_extracted_below _ Hx) as (n & Hn & -> & _).
  exists n. split; [|reflexivity].
  split; [lia | now apply (@binary64_range (String.length userMessage))].
Qed.

Lemma matchAge_below (userMessage group : string) :
  (String.length userMessage <= 308)%nat ->
  matchAge userMessage = Some group ->
  exists n : Z, (0 <= n < 2 ^ 1024)%Z /\ parseInt group = Fin (IZR n).
Proof.
  intros Hlen Hm.
  destruct (matchAge_group _ Hm) as [Hd Hne].
  destruct (parseInt_group Hd Hne) as (n' & _ & Hfin).
  destruct (@parseInt_below _ Hd) as [Hnan | (n & Hn & Hv)];
    [rewrite Hfin in Hnan; discriminate|].
  exists n. split; [|exact Hv].
  pose proof (length_matchAge _ Hm).
  split; [lia | apply (@binary64_range (String.length group)); lia].
Qed.

Lemma respond_withinBinary64 (ctx : ChatContext) (userMessage : string) :
  (String.length userMessage <= 308)%nat ->
  withinBinary64 ctx -> withinBinary64 (snd (respond ctx userMessage)).
Proof.
  intros Hlen (Hinc & Hage).
  rewrite respond_context.
  destruct (queued_updaters_exact ctx userMessage) as (topic & -> & Ht).
  pose proof (@mentionsIncome_below userMessage) as Hmi.
  pose proof (@matchAge_below userMessage) as Hag.
  destruct (mentionsIncome userMessage) as [v|];
    destruct (matchAge userMessage) as [g|];
    destruct Ht as [-> | [-> | ->]];
    cbn [app commit fold_left storeIncome storeAge storeLastTopic
         userData lastTopic conversationState with_income with_age
         income age];
    (split; [try exact Hinc | try exact Hage]);
    try (intros w Hw; injection Hw as <-; now apply Hmi);
    try (intros w Hw; injection Hw as <-; now apply Hag).
Qed.

Lemma handleSendMessage_withinBinary64 (ctx : ChatContext) (input : string) :
  (String.length input <= 308)%nat ->
  withinBinary64 ctx -> withinBinary64 (snd (handleSendMessage ctx input)).
Proof.
  intros Hlen H. rewrite handleSendMessage_context.
  destruct (isBlank input); [exact H | now apply respond_withinBinary64].
Qed.

(** X11. In every session whose messages have at most 308 characters each,
    the income held is a positive whole number and the age held a whole
    number that is not negative, both within the finite range of binary64:
    never [NaN], never a fraction, never [Infinity]. *)
Theorem session_income_and_age (inputs : list string) :
  Forall (fun input => (String.length input <= 308)%nat) inputs ->
  (forall v, income (userData (session inputs)) = Some v ->
             exists n : Z, (0 < n < 2 ^ 1024)%Z /\ v = Fin (IZR n)) /\
  (forall v, age (userData (session inputs)) = Some v ->
             exists n : Z, (0 <= n < 2 ^ 1024)%Z /\ v = Fin (IZR n)).
Proof.
  intros Hinputs. change (withinBinary64 (session inputs)). unfold session.
  assert (Hinit : withinBinary64 initialContext) by (split; discriminate).
  revert Hinit. generalize initialContext.
  induction Hinputs as [|input inputs Hlen _ IH]; intros start Hstart;
    [exact Hstart|].
  cbn [fold_left]. apply IH. now apply handleSendMessage_withinBinary64.
Qed.

Lemma session_income_and_age_witness :
  (exists n : Z, (0 < n < 2 ^ 1024)%Z /\ Fin 4000 = Fin (IZR n)) /\
  (exists n : Z, (0 <= n < 2 ^ 1024)%Z /\ Fin 0 = Fin (IZR n)).
Proof.
  destruct (@session_income_and_age
              ["I make $4000 per month"; "I'm 0 years old"]%string)
    as [Hincome Hage].
  - repeat constructor; cbn; lia.
  - split; [apply Hincome | apply Hage]; js_eval; reflexivity.
Defined.

(** X12. No session ever sets the other fields of the profile, and [lastTopic] is
    empty, "budget" or "retirement". *)
Theorem session_unused_fields (inputs : list string) :
  let ctx := session inputs in
  (expenses (userData ctx) = None /\
   retirementAge (userData ctx) = None /\
   currentSavings (userData ctx) = None /\
   debt (userData ctx) = None /\
   riskTolerance (userData ctx) = None /\
   goals (userData ctx) = None) /\
  (lastTopic ctx = EmptyString \/ lastTopic ctx = "budget"%string
   \/ lastTopic ctx = "retirement"%string).
Proof.
  destruct (session_sessionProfile inputs) as (_ & _ & Hd & Ht). now split.
Qed.

(** X13. What has been learnt is not forgotten: once an income or an age is
    stored, no message takes it away. *)
Theorem respond_keeps_facts (chatContext : ChatContext) (userMessage : string) :
  let next := snd (respond chatContext userMessage) in
  (income (userData chatContext) <> None -> income (userData next) <> None) /\
  (age (userData chatContext) <> None -> age (userData next) <> None).
Proof.
  cbv zeta. rewrite respond_context.
  destruct (queued_updaters_exact chatContext userMessage) as (topic & -> & Ht).
  destruct (mentionsIncome userMessage) as [v|];
    destruct (matchAge userMessage) as [g|];
    destruct Ht as [-> | [-> | ->]];
    cbn [app commit fold_left storeIncome storeAge storeLastTopic
         userData with_income with_age income age];
    split; intros H; (exact H || discriminate).
Qed.

Lemma respond_keeps_facts_witness :
  let known := snd (respond initialContext "I make $4000 per month, I'm 30") in
  let next := snd (respond known "I have $0 income, age 0") in
  income (userData next) <> None /\ age (userData next) <> None.
Proof.
  cbv zeta.
  destruct (@respond_keeps_facts
              (snd (respond initialContext "I make $4000 per month, I'm 30"))
              "I have $0 income, age 0") as [Hincome Hage].
  split; [apply Hincome | apply Hage]; js_eval; discriminate.
Defined.

(** ** What the replies can be *)

(** X14. Without a usable income in the rendered context no message gets
    a budget, a retirement projection or an emergency fund plan, whatever
    it says - an income given in the message itself does not count. *)
Theorem no_plan_without_income (chatContext : ChatContext) (userMessage : string) :
  truthy_value (income (userData chatContext)) = None ->
  let reply := fst (respond chatContext userMessage) in
  template reply <> BudgetBreakdown /\
  template reply <> RetirementProjection /\
  template reply <> EmergencyFundPlanReply.
Proof.
  intros H. cbv zeta.
  unfold respond, getBeginnerFriendlyResponse, bind, ret, setChatContext.
  rewrite H.
  repeat destruct_match; cbn [fst template fixed]; repeat split; discriminate.
Qed.

Lemma no_plan_without_income_witness :
  let reply :=
    fst (respond initialContext "I'm new to budgeting and make $4000 per month") in
  template reply <> BudgetBreakdown /\
  template reply <> RetirementProjection /\
  template reply <> EmergencyFundPlanReply.
Proof.
  apply (@no_plan_without_income initialContext
           "I'm new to budgeting and make $4000 per month").
  reflexivity.
Defined.

(** X15. The reply depends on the message and on [userData] alone: the
    handler writes [conversationState] and [lastTopic] and never reads
    them. *)
Theorem reply_reads_userData_only
    (context1 context2 : ChatContext) (userMessage : string) :
  userData context1 = userData context2 ->
  fst (respond context1 userMessage) = fst (respond context2 userMessage).
Proof.
  intros H.
  unfold respond, getBeginnerFriendlyResponse, bind, ret, setChatContext.
  rewrite H.
  repeat destruct_match; reflexivity.
Qed.

Lemma reply_reads_userData_only_witness :
  fst (respond initialContext "help me budget")
  = fst (respond {| userData := UserData.empty;
                    conversationState := providing_advice;
                    lastTopic := "retirement" |} "help me budget").
Proof.
  apply (@reply_reads_userData_only initialContext
           {| userData := UserData.empty;
              conversationState := providing_advice;
              lastTopic := "retirement" |}).
  reflexivity.
Defined.

(** The debt reply. *)
Lemma debt_plan_minimum (d : R) :
  (0 < d)%R ->
  calculateDebtPayoff (Fin d) (Fin 0.18) (Fin d * Fin 0.02)
  = {| monthsToPayoff := Fin 94;
       totalInterest := Fin (0.88 * d);
       totalPaid := Fin (1.88 * d) |}.
Proof.
  intros Hd. cbn [Num.mul].
  rewrite calculateDebtPayoff_amortizing by lra.
  assert (Hshare : (1 - d * (0.18 / 12) / (d * 0.02) = 0.25)%R).
  { assert (H : (d * (0.18 / 12) / (d * 0.02) = 0.75)%R); [|lra].
    apply Rmult_eq_reg_r with (d * 0.02)%R; [|nra].
    unfold Rdiv at 1. rewrite Rmult_assoc, Rinv_l by nra. lra. }
  rewrite (@Zceil_months_exact d 0.18 (d * 0.02) 93) by (rewrite ?Hshare; lra).
  cbv zeta. f_equal; f_equal; simpl IZR; lra.
Qed.

Lemma debt_plan_double (d : R) :
  (0 < d)%R ->
  calculateDebtPayoff (Fin d) (Fin 0.18) (Fin d * Fin 0.02 * Fin 2)
  = {| monthsToPayoff := Fin 32;
       totalInterest := Fin (0.28 * d);
       totalPaid := Fin (1.28 * d) |}.
Proof.
  intros Hd. cbn [Num.mul].
  rewrite calculateDebtPayoff_amortizing by lra.
  assert (Hshare : (1 - d * (0.18 / 12) / (d * 0.02 * 2) = 0.625)%R).
  { assert (H : (d * (0.18 / 12) / (d * 0.02 * 2) = 0.375)%R); [|lra].
    apply Rmult_eq_reg_r with (d * 0.02 * 2)%R; [|nra].
    unfold Rdiv at 1. rewrite Rmult_assoc, Rinv_l by nra. lra. }
  rewrite (@Zceil_months_exact d 0.18 (d * 0.02 * 2) 31) by (rewrite ?Hshare; lra).
  cbv zeta. f_equal; f_equal; simpl IZR; lra.
Qed.

Lemma round_years (months years : Z) :
  (IZR years <= IZR months / 12 + / 2 < IZR years + 1)%R ->
  Math.round (Fin (IZR months) / Fin 12) = Fin (IZR years).
Proof.
  intros H. rewrite div_Fin by lra. cbn [Math.round].
  now rewrite (@Zfloor_unique _ years).
Qed.

(** X16. Every debt plan is the same plan.  For a message of at most 300
    characters that gets it, the debt [d] is the first number of the
    message, a positive whole number below 2^1000, and the reply shows a
    minimum payment of 2% of it paid over 8 years with 88% of it in
    interest, a double payment of 4% paid over 3 years with 28% in
    interest, and a saving of 60%. *)
Theorem debt_reply_figures (chatContext : ChatContext) (userMessage : string) :
  (String.length userMessage <= 300)%nat ->
  let reply := fst (respond chatContext userMessage) in
  template reply = DebtPaths ->
  exists d : R,
    (0 < d < 2 ^ 1000)%R /\
    extractNumberFromText userMessage = Some (Fin d) /\
    holes reply =
      [Currency (Fin d);
       Currency (Fin (0.02 * d)); Plain (Fin 8); Currency (Fin (0.88 * d));
       Currency (Fin (0.04 * d)); Plain (Fin 3); Currency (Fin (0.28 * d));
       Currency (Fin (0.6 * d))].
Proof.
  intros Hlen. cbv zeta.
  unfold respond, getBeginnerFriendlyResponse, bind, ret, setChatContext.
  set (amount := truthy_value (extractNumberFromText userMessage)).
  assert (Hamount : forall v, amount = Some v ->
            exists n : Z, (0 < n < 10 ^ Z.of_nat (String.length userMessage))%Z
                          /\ v = Fin (IZR n)
                          /\ extractNumberFromText userMessage = Some v).
  { intros v. apply truthy_extracted_below. }
  destruct amount as [v|] eqn:Hv.
  - destruct (Hamount v eq_refl) as (n & Hn & -> & Hx).
    assert (Hd : (0 < IZR n < 2 ^ 1000)%R).
    { split; [apply IZR_lt; lia|].
      rewrite pow_IZR. apply IZR_lt.
      assert (H1 : (10 ^ Z.of_nat (String.length userMessage) <= 10 ^ 300)%Z)
        by (apply Z.pow_le_mono_r; lia).
      assert (H2 : (10 ^ 300 < 2 ^ Z.of_nat 1000)%Z) by reflexivity.
      lia. }
    repeat destruct_match; cbn [fst template fixed holes];
      try discriminate; intros _.
    all: exists (IZR n); split; [exact Hd|]; split; [exact Hx|].
    all: rewrite debt_plan_minimum, debt_plan_double by apply Hd.
    all: cbn [monthsToPayoff totalInterest].
    all: rewrite (@round_years 94 8), (@round_years 32 3) by lra.
    all: cbn [Num.mul Num.sub Num.neg Num.add].
    all: repeat (f_equal; try lra).
  - repeat destruct_match; cbn [fst template fixed]; discriminate.
Qed.

Lemma debt_reply_figures_witness :
  exists d : R,
    (0 < d < 2 ^ 1000)%R /\
    extractNumberFromText "I have $5000 in credit card debt" = Some (Fin d) /\
    holes (fst (respond initialContext "I have $5000 in credit card debt")) =
      [Currency (Fin d);
       Currency (Fin (0.02 * d)); Plain (Fin 8); Currency (Fin (0.88 * d));
       Currency (Fin (0.04 * d)); Plain (Fin 3); Currency (Fin (0.28 * d));
       Currency (Fin (0.6 * d))].
Proof.
  apply (@debt_reply_figures initialContext "I have $5000 in credit card debt").
  - cbn. lia.
  - js_eval. reflexivity.
Defined.

(** A word that contains a keyword triggers it. *)
Lemma prefix_app (a b s : string) :
  prefix (a ++ b) s = true -> prefix a s = true.
Proof.
  revert s. induction a as [|c a IH]; intros s; [destruct s; reflexivity|].
  destruct s as [|c' s']; cbn; [discriminate|].
  destruct (ascii_dec c c'); [apply IH | discriminate].
Qed.

Lemma includes_app (s a b : string) :
  includes s (a ++ b) = true -> includes s a = true.
Proof.
  induction s as [|c rest IH]; cbn [includes]; intros H.
  - apply orb_prop in H as [H | H]; [|discriminate].
    now rewrite (prefix_app _ _ _ H).
  - apply orb_prop in H as [H | H].
    + now rewrite (prefix_app _ _ _ H).
    + rewrite (IH H). apply orb_true_r.
Qed.

Lemma includes_drop (s a b : string) :
  includes s (a ++ b) = true -> includes s b = true.
Proof.
  revert s. induction a as [|c a IH]; intros s; [trivial|].
  induction s as [|c' rest IHs]; cbn [includes append]; intros H.
  - apply orb_prop in H as [H | H]; discriminate.
  - apply orb_prop in H as [H | H].
    + cbn in H. destruct (ascii_dec c c'); [|discriminate].
      assert (Hin : includes rest (a ++ b) = true).
      { destruct rest; cbn [includes]; now rewrite H. }
      rewrite (IH _ Hin). apply orb_true_r.
    + rewrite (IHs H). apply orb_true_r.
Qed.

(** X17. A message with a word that has "hi" in it - "this", "anything",
    "which" - is a greeting. *)
Theorem greeting_inside_a_word
    (chatContext : ChatContext) (userMessage before after : string) :
  includes (toLowerCase userMessage) (before ++ "hi" ++ after) = true ->
  fst (respond chatContext userMessage) = fixed TopicMenu.
Proof.
  intros H. apply greeting_words_first. cbv zeta.
  apply includes_drop, includes_app in H. rewrite H.
  now rewrite orb_true_r.
Qed.

Lemma greeting_inside_a_word_witness :
  fst (respond initialContext "Is this the place for debt advice?")
  = fixed TopicMenu.
Proof.
  apply (@greeting_inside_a_word initialContext
           "Is this the place for debt advice?" "t" "s").
  reflexivity.
Defined.

(** X18. The word "retirement" has "retire" in it: the retirement branch takes
    every message the emergency branch would turn away for it. *)
Theorem retirement_never_reaches_emergency
    (chatContext : ChatContext) (userMessage : string) :
  includes (toLowerCase userMessage) "retirement" = true ->
  let reply := fst (respond chatContext userMessage) in
  In (template reply)
     [TopicMenu; BudgetBreakdown; AskIncomeForBudget;
      RetirementProjection; AskAgeAndIncome].
Proof.
  intros H. cbv zeta.
  apply (@includes_app _ "retire" "ment") in H.
  unfold respond, getBeginnerFriendlyResponse, bind, ret, setChatContext.
  rewrite H. cbn [orb].
  repeat destruct_match; cbn [fst template fixed In]; tauto.
Qed.

Lemma retirement_never_reaches_emergency_witness :
  In (template (fst (respond initialContext "savings for retirement")))
     [TopicMenu; BudgetBreakdown; AskIncomeForBudget;
      RetirementProjection; AskAgeAndIncome].
Proof.
  apply (@retirement_never_reaches_emergency initialContext
           "savings for retirement").
  reflexivity.
Defined.

(** X19. The investment reply for a stored age that is a whole number from 0
    to 2^53 (or no stored age): the two shares are whole numbers, they add
    up to 100, the stocks are at most 90 and the bonds at least 10. *)
Theorem starter_portfolio_shares
    (chatContext : ChatContext) (userMessage : string) :
  (forall v, age (userData chatContext) = Some v ->
             exists n : Z, (0 <= n <= 2 ^ 53)%Z /\ v = Fin (IZR n)) ->
  let reply := fst (respond chatContext userMessage) in
  template reply = StarterPortfolio ->
  exists stocks bonds : Z,
    holes reply = [Plain (Fin (IZR stocks)); Plain (Fin (IZR bonds))] /\
    (stocks + bonds = 100)%Z /\ (stocks <= 90)%Z /\ (10 <= bonds)%Z.
Proof.
  intros Hage. cbv zeta.
  unfold respond, getBeginnerFriendlyResponse, bind, ret, setChatContext.
  assert (Hshares : exists stocks bonds : Z,
    [Plain (Math.min (Fin 90)
              (Fin 100 - value_or (age (userData chatContext)) (Fin 30)));
     Plain (Fin 100 - Math.min (Fin 90)
              (Fin 100 - value_or (age (userData chatContext)) (Fin 30)))]
    = [Plain (Fin (IZR stocks)); Plain (Fin (IZR bonds))] /\
    (stocks + bonds = 100)%Z /\ (stocks <= 90)%Z /\ (10 <= bonds)%Z).
  { assert (Hfin : exists a : Z,
              value_or (age (userData chatContext)) (Fin 30) = Fin (IZR a)).
    { unfold value_or, truthy_value.
      destruct (age (userData chatContext)) as [v|] eqn:Hv; [|now exists 30%Z].
      destruct (Hage v eq_refl) as (n & _ & ->).
      destruct (Num.truthy _); [now exists n | now exists 30%Z]. }
    destruct Hfin as [a ->].
    cbn [Num.sub Num.neg Num.add]. unfold Math.min. cbn [Num.leb].
    replace (100 + - IZR a)%R with (IZR (100 - a))
      by (rewrite minus_IZR; lra).
    destruct (Z.le_gt_cases 90 (100 - a)) as [Hle | Hgt].
    - rewrite Rleb_true by (apply IZR_le; lia).
      cbn [Num.sub Num.neg Num.add].
      replace (100 + - (90))%R with (IZR 10) by lra.
      exists 90%Z, 10%Z. split; [reflexivity | lia].
    - rewrite Rleb_false by (apply IZR_lt; lia).
      cbn [Num.sub Num.neg Num.add].
      replace (100 + - IZR (100 - a))%R with (IZR a)
        by (rewrite minus_IZR; lra).
      exists (100 - a)%Z, a. split; [reflexivity | lia]. }
  repeat destruct_match; cbn [fst template fixed holes];
    try discriminate; intros _; exact Hshares.
Qed.

Lemma starter_portfolio_shares_witness :
  exists stocks bonds : Z,
    holes (fst (respond (session ["I'm 25"%string]) "start investing"))
    = [Plain (Fin (IZR stocks)); Plain (Fin (IZR bonds))] /\
    (stocks + bonds = 100)%Z /\ (stocks <= 90)%Z /\ (10 <= bonds)%Z.
Proof.
  apply (@starter_portfolio_shares (session ["I'm 25"%string]) "start investing").
  - intros v Hv.
    assert (Hage : age (userData (session ["I'm 25"%string])) = Some (Fin 25))
      by (js_eval; reflexivity).
    rewrite Hage in Hv. injection Hv as <-.
    exists 25%Z. split; [lia | reflexivity].
  - js_eval. reflexivity.
Defined.

(** X20. One number for two uses: a message with an income word and a debt word
    has its number stored as the income and taken as the debt. *)
Theorem income_taken_as_debt
    (chatContext : ChatContext) (userMessage : string) (v : number) :
  mentionsIncome userMessage = Some v ->
  let (reply, next) := respond chatContext userMessage in
  template reply = DebtPaths ->
  income (userData next) = Some v /\ hd (Plain NaN) (holes reply) = Currency v.
Proof.
  intros Hm.
  pose proof (respond_state chatContext userMessage) as Hs. cbv zeta in Hs.
  rewrite Hm in Hs. destruct Hs as [_ Hinc].
  destruct (respond chatContext userMessage) as [reply next] eqn:Hr.
  cbn [snd] in Hinc. intros Ht. split; [exact Hinc|].
  assert (Hreply : reply = fst (respond chatContext userMessage))
    by now rewrite Hr.
  clear Hr Hinc. subst reply.
  unfold mentionsIncome in Hm. revert Ht.
  unfold respond, getBeginnerFriendlyResponse, bind, ret, setChatContext.
  destruct (truthy_value (extractNumberFromText userMessage)) as [w|];
    [|discriminate].
  assert (Hw : w = v).
  { destruct (_ || _) in Hm; [|discriminate]. now injection Hm. }
  subst w.
  repeat destruct_match; cbn [fst template fixed holes hd];
    try discriminate; reflexivity.
Qed.

Lemma income_taken_as_debt_witness :
  let (reply, next) :=
    respond initialContext "I earn $4000 and owe on my credit card" in
  income (userData next) = Some (Fin 4000) /\
  hd (Plain NaN) (holes reply) = Currency (Fin 4000).
Proof.
  pose proof (@income_taken_as_debt initialContext
                "I earn $4000 and owe on my credit card" (Fin 4000)) as H.
  destruct (respond initialContext "I earn $4000 and owe on my credit card")
    as [reply next] eqn:Hr.
  assert (Ht : template reply = DebtPaths).
  { replace reply with
      (fst (respond initialContext "I earn $4000 and owe on my credit card"))
      by now rewrite Hr.
    js_eval. reflexivity. }
  apply H; [|exact Ht]. js_eval. reflexivity.
Defined.

(** ** The retirement reply after 65 *)

Lemma calculateRetirementPlan_finite
    (currentAge retirementAge currentSavings monthlyIncome contributionRate : R) :
  (retirementAge - currentAge <> 0)%R ->
  let fund :=
    fund_exact (retirementAge - currentAge) currentSavings monthlyIncome
      contributionRate in
  calculateRetirementPlan (Fin currentAge) (Fin retirementAge)
    (Fin currentSavings) (Fin monthlyIncome) (Fin contributionRate)
  = {| yearsToRetirement := Fin (retirementAge - currentAge);
       monthlyContribution := Fin (monthlyIncome * contributionRate);
       projectedRetirementFund := Fin fund;
       monthlyIncomeAtRetirement := Fin (fund * 0.04 / 12) |}.
Proof.
  intros Hy. cbv zeta. unfold calculateRetirementPlan, fund_exact.
  cbn [Num.sub Num.neg Num.add Num.mul].
  rewrite !div_Fin by lra.
  cbn [Num.sub Num.neg Num.add Num.mul].
  rewrite !pow_Fin by lra.
  cbn [Num.sub Num.neg Num.add Num.mul].
  rewrite !div_Fin by lra.
  cbn [Num.sub Num.neg Num.add Num.mul].
  rewrite !div_Fin by lra.
  reflexivity.
Qed.

Lemma truthy_value_Fin (r : R) :
  r <> 0%R -> truthy_value (Some (Fin r)) = Some (Fin r).
Proof. intros Hr. unfold truthy_value, Num.truthy. now rewrite (Reqb_false Hr). Qed.

(** X21. A user whose stored age is over 65 and who has an income is shown a
    retirement projection with a negative number of years and a negative
    fund. *)
Theorem retirement_projection_past_65
    (chatContext : ChatContext) (userMessage : string) (knownAge knownIncome : R) :
  age (userData chatContext) = Some (Fin knownAge) ->
  income (userData chatContext) = Some (Fin knownIncome) ->
  currentSavings (userData chatContext) = None ->
  (65 < knownAge)%R -> (0 < knownIncome)%R ->
  let reply := fst (respond chatContext userMessage) in
  template reply = RetirementProjection ->
  exists years fund : R,
    holes reply
    = [Plain (Fin years); Currency (Fin (knownIncome * 0.15));
       Currency (Fin fund); Currency (Fin (fund * 0.04 / 12))] /\
    (years < 0)%R /\ (fund < 0)%R.
Proof.
  intros Ha Hi Hcs Hold Hpos. cbv zeta.
  unfold respond, getBeginnerFriendlyResponse, bind, ret, setChatContext.
  unfold value_or. rewrite Ha, Hi, Hcs.
  rewrite !truthy_value_Fin by lra. cbn [truthy_value].
  unfold default_contributionRate.
  rewrite calculateRetirementPlan_finite by lra. cbv zeta.
  set (fund := fund_exact (65 - knownAge) 0 knownIncome 0.15).
  assert (Hfund : (fund < 0)%R).
  { unfold fund, fund_exact.
    assert (H2 : (Rpower (1 + 0.07 / 12) ((65 - knownAge) * 12) < 1)%R)
      by (apply Rpower_lt_1; lra).
    assert (H3 : ((Rpower (1 + 0.07 / 12) ((65 - knownAge) * 12) - 1)
                  / (0.07 / 12) < 0)%R).
    { assert (Hinv : (0 < / (0.07 / 12))%R) by (apply Rinv_0_lt_compat; lra).
      unfold Rdiv at 1. nra. }
    nra. }
  repeat destruct_match;
    cbn [fst template fixed holes yearsToRetirement monthlyContribution
         projectedRetirementFund monthlyIncomeAtRetirement];
    try discriminate; intros _;
    exists (65 - knownAge)%R, fund; (split; [reflexivity|]); split; lra.
Qed.

Lemma retirement_projection_past_65_witness :
  exists years fund : R,
    holes (fst (respond (session ["I make $4000 per month"; "I'm 70"]%string)
                  "plan my retirement"))
    = [Plain (Fin years); Currency (Fin (4000 * 0.15));
       Currency (Fin fund); Currency (Fin (fund * 0.04 / 12))] /\
    (years < 0)%R /\ (fund < 0)%R.
Proof.
  apply (@retirement_projection_past_65
           (session ["I make $4000 per month"; "I'm 70"]%string)
           "plan my retirement" 70 4000);
    try lra; js_eval; reflexivity.
Defined.
